(** * Access-log statistics (logs_classes/hw4.py)

    A shallow embedding of the log-line parser ([Parser]), the seven
    accumulators ([SlowestPageStat], [FastestPageStat],
    [SlowestAveragePageStat], [MostPopularPageStat], [MostActiveClientStat],
    [MostPopularBrowserStat], [MostActiveClientByDayStat]), the helper
    [lexicographic_min] and the engine ([Statistics]), followed by the
    properties established about them.

    Conventions of the embedding:
    - a Python [str] is a [string] whose characters are the code points
      0..255; [int] is [Z];
    - a Python [dict] (and [defaultdict]) is an association list in insertion
      order with pairwise distinct keys;
    - an object mutated in place is a record passed in and returned;
    - a call that can raise returns an [outcome];
    - the two services of the host that the program calls and does not define,
      [float] arithmetic and [datetime.strptime], are the fields of the class
      [Host];
    - names are the source's; the two classes that the source spells with a
      Cyrillic letter are [MostActiveClientStat] and
      [MostActiveClientByDayStat] here. *)

From Stdlib Require Import ZArith List Bool Ascii String Lia Permutation Floats.
Import ListNotations.

Local Open Scope string_scope.
Local Open Scope Z_scope.

(** ** Python values and exceptions *)

Inductive exn : Type :=
| ValueError
| TypeError
| KeyError.

Inductive outcome (A : Type) : Type :=
| Return (a : A)
| Raise (e : exn).

Arguments Return {A} a.
Arguments Raise {A} e.

Definition bind {A B : Type} (c : outcome A) (f : A -> outcome B) : outcome B :=
  match c with
  | Return a => f a
  | Raise e => Raise e
  end.

Notation "x <- c ;; k" := (bind c (fun x => k))
  (at level 61, c at next level, right associativity).

(** [datetime.date] *)
Record datetime_date : Type := mkdate { year : Z; month : Z; day : Z }.

Definition date_eqb (a b : datetime_date) : bool :=
  (year a =? year b) && (month a =? month b) && (day a =? day b).

(** What a [value()] returns where the source returns a string: a [str], or
    [None] when a loop falls off its end without returning. *)
Inductive pyvalue : Type :=
| PyNone
| PyStr (s : string).

(** ** dict and defaultdict, in insertion order *)

Definition dict (V : Type) : Type := list (string * V).

Definition keys {V : Type} (d : dict V) : list string := map fst d.

Definition values {V : Type} (d : dict V) : list V := map snd d.

Fixpoint dict_get {V : Type} (k : string) (d : dict V) : option V :=
  match d with
  | [] => None
  | (k', v) :: d' => if String.eqb k k' then Some v else dict_get k d'
  end.

(** [d[k] = v]: an existing key keeps its position, a new one goes last. *)
Fixpoint dict_set {V : Type} (k : string) (v : V) (d : dict V) : dict V :=
  match d with
  | [] => [(k, v)]
  | (k', v') :: d' =>
      if String.eqb k k' then (k, v) :: d' else (k', v') :: dict_set k v d'
  end.

(** [defaultdict.__getitem__]: a missing key is first inserted with the
    factory's value. *)
Definition dd_getitem {V : Type} (factory : V) (k : string) (d : dict V)
  : V * dict V :=
  match dict_get k d with
  | Some v => (v, d)
  | None => (factory, dict_set k factory d)
  end.

(** [d[k] += 1] on a [defaultdict(int)] *)
Definition dd_incr (k : string) (d : dict Z) : dict Z :=
  let '(v, d1) := dd_getitem 0 k d in dict_set k (v + 1) d1.

(** The builtin [max]: the first item is kept until a later one is strictly
    greater. [gt v m] is [v > m] (on the keys, when a [key=] is given). *)
Definition py_max {A : Type} (gt : A -> A -> bool) (x : A) (xs : list A) : A :=
  fold_left (fun m v => if gt v m then v else m) xs x.

(** [sorted] on strings: insertion into an ascending list, compared by code
    points. *)
Fixpoint insert_sorted (k : string) (l : list string) : list string :=
  match l with
  | [] => [k]
  | k' :: l' => if String.leb k k' then k :: l else k' :: insert_sorted k l'
  end.

Definition sorted (l : list string) : list string :=
  fold_right insert_sorted [] l.

(** ** The host: float arithmetic and strptime *)

Class Host : Type := {
  pyfloat : Type;
  (** [a / b] on two ints, [b] not zero and the quotient within the range
      of floats: Python raises ZeroDivisionError or OverflowError otherwise,
      and the result is a finite float *)
  truediv : Z -> Z -> pyfloat;
  (** the int [0] where a float is expected *)
  fzero : pyfloat;
  fsub : pyfloat -> pyfloat -> pyfloat;
  fabs : pyfloat -> pyfloat;
  flt : pyfloat -> pyfloat -> bool;
  (** [0.1**10] *)
  tolerance : pyfloat;
  (** [datetime.strptime(s, "%d/%b/%Y:%H:%M:%S %z").date()]; [None] when it
      raises ValueError *)
  strptime_date : string -> option datetime_date
}.

(** ** lexicographic_min *)

(** [for key in ks: if data[key] == max_value: return key]; falling off the
    loop returns [None]. [data] is a [defaultdict(int)]: a missing key
    reads as 0. *)
Fixpoint first_with_value (data : dict Z) (max_value : Z) (ks : list string)
  : pyvalue :=
  match ks with
  | [] => PyNone
  | key :: ks' =>
      let v := match dict_get key data with Some v => v | None => 0 end in
      if v =? max_value then PyStr key else first_with_value data max_value ks'
  end.

Definition lexicographic_min (data : dict Z) : pyvalue :=
  match values data with
  | [] => PyStr EmptyString
  | v :: vs =>
      let max_value := py_max Z.gtb v vs in
      first_with_value data max_value (sorted (keys data))
  end.

(** ** The accumulators *)

Module SlowestPageStat.

Record t : Type := mk { _max_time : Z; _value : string }.

Definition init : t := {| _max_time := 0; _value := EmptyString |}.

Definition update (time : Z) (page : string) (self : t) : t :=
  if time >=? _max_time self
  then {| _max_time := time; _value := page |}
  else self.

Definition value (self : t) : pyvalue := PyStr (_value self).

End SlowestPageStat.

Module FastestPageStat.

Record t : Type := mk { _min_time : Z; _value : string }.

Definition init : t := {| _min_time := 10 ^ 10; _value := EmptyString |}.

Definition update (time : Z) (page : string) (self : t) : t :=
  if time <=? _min_time self
  then {| _min_time := time; _value := page |}
  else self.

Definition value (self : t) : pyvalue := PyStr (_value self).

End FastestPageStat.

Module Page.

Record t `{Host} : Type := mk { _total_time : Z; _count : Z; _avg_time : pyfloat }.

Definition init `{Host} : t :=
  {| _total_time := 0; _count := 0; _avg_time := fzero |}.

Definition calculate_avg_time `{Host} (self : t) : t :=
  {| _total_time := _total_time self;
     _count := _count self;
     _avg_time := truediv (_total_time self) (_count self) |}.

Definition add_time `{Host} (time : Z) (self : t) : t :=
  calculate_avg_time
    {| _total_time := _total_time self + time;
       _count := _count self + 1;
       _avg_time := _avg_time self |}.

Definition avg_time `{Host} (self : t) : pyfloat := _avg_time self.

(** [abs(p.avg_time() - m.avg_time()) < 0.1**10] *)
Definition close `{Host} (m p : t) : bool :=
  flt (fabs (fsub (avg_time p) (avg_time m))) tolerance.

(** [for name in pages_names: if close: return name] *)
Fixpoint first_close `{Host} (pages : dict t) (m : t) (names : list string)
  : outcome pyvalue :=
  match names with
  | [] => Return PyNone
  | name :: names' =>
      match dict_get name pages with
      | None => Raise KeyError
      | Some p =>
          if close m p then Return (PyStr name) else first_close pages m names'
      end
  end.

(** [Page.max]; the builtin [max] raises ValueError on an empty sequence. *)
Definition max `{Host} (pages : dict t) : outcome pyvalue :=
  match values pages with
  | [] => Raise ValueError
  | p :: ps =>
      let max_avg_time := py_max (fun x m => flt (avg_time m) (avg_time x)) p ps in
      first_close pages max_avg_time (keys pages)
  end.

End Page.

Module SlowestAveragePageStat.

Record t `{Host} : Type := mk { _pages : dict Page.t }.

Definition init `{Host} : t := {| _pages := [] |}.

(** [self._pages[page].add_time(time)] *)
Definition update `{Host} (time : Z) (page : string) (self : t) : t :=
  let '(p, d) := dd_getitem Page.init page (_pages self) in
  {| _pages := dict_set page (Page.add_time time p) d |}.

Definition value `{Host} (self : t) : outcome pyvalue :=
  match _pages self with
  | [] => Return (PyStr EmptyString)
  | _ :: _ => Page.max (_pages self)
  end.

End SlowestAveragePageStat.

Module MostPopularPageStat.

Record t : Type := mk { _pages : dict Z }.

Definition init : t := {| _pages := [] |}.

Definition update (page : string) (self : t) : t :=
  {| _pages := dd_incr page (_pages self) |}.

Definition value (self : t) : pyvalue := lexicographic_min (_pages self).

End MostPopularPageStat.

Module MostActiveClientStat.

Record t : Type := mk { _clients : dict Z }.

Definition init : t := {| _clients := [] |}.

Definition update (client : string) (self : t) : t :=
  {| _clients := dd_incr client (_clients self) |}.

Definition value (self : t) : pyvalue := lexicographic_min (_clients self).

End MostActiveClientStat.

Module MostPopularBrowserStat.

Record t : Type := mk { _browsers : dict Z }.

Definition init : t := {| _browsers := [] |}.

Definition update (browser : string) (self : t) : t :=
  {| _browsers := dd_incr browser (_browsers self) |}.

Definition value (self : t) : pyvalue := lexicographic_min (_browsers self).

End MostPopularBrowserStat.

Module MostActiveClientByDayStat.

Record t : Type := mk { _date : datetime_date; _clients : dict Z }.

Definition init (d : datetime_date) : t := {| _date := d; _clients := [] |}.

Definition update (d : datetime_date) (client : string) (self : t) : t :=
  if negb (date_eqb (_date self) d)
  then self
  else {| _date := _date self; _clients := dd_incr client (_clients self) |}.

(** [{self._date: lexicographic_min(self._clients)}] *)
Definition value (self : t) : list (datetime_date * pyvalue) :=
  [(_date self, lexicographic_min (_clients self))].

End MostActiveClientByDayStat.

(** ** Regular expressions: the fragment of [re] that [PATTERN] uses *)

Definition code (c : ascii) : N := N_of_ascii c.

(** [\d]: the decimal digits *)
Definition is_digit (c : ascii) : bool :=
  (N.leb 48 (code c) && N.leb (code c) 57)%N.

(** [\s]: tab to carriage return, the four separators 28..31, the space,
    U+0085 and U+00A0 *)
Definition is_space (c : ascii) : bool :=
  let n := code c in
  ((N.leb 9 n && N.leb n 13) || (N.leb 28 n && N.leb n 32)
   || N.eqb n 133 || N.eqb n 160)%N.

(** [\S] *)
Definition is_nonspace (c : ascii) : bool := negb (is_space c).

(** [.] (without DOTALL): anything but a line feed *)
Definition is_any (c : ascii) : bool := negb (N.eqb (code c) 10).

Inductive regex : Type :=
| Eps
| Chr (c : ascii)
| Cls (p : ascii -> bool)
| Seq (r1 r2 : regex)
| Alt (r1 r2 : regex)
| Group (name : option string) (r : regex)
| Rep (p : ascii -> bool) (lo : nat) (hi : option nat)
| Opt (r : regex).

Infix "@@" := Seq (at level 60, right associativity).

(** the double quote, as a character and as a string *)
Definition dquote : ascii := "034"%char.

Definition q : string := String dquote EmptyString.

(** a literal piece of the pattern *)
Fixpoint lit (s : string) : regex :=
  match s with
  | EmptyString => Eps
  | String c s' => Chr c @@ lit s'
  end.

(** [r{n}] *)
Fixpoint times (n : nat) (r : regex) : regex :=
  match n with
  | O => Eps
  | S n' => r @@ times n' r
  end.

(** [p+] *)
Definition plus (p : ascii -> bool) : regex := Rep p 1 None.

(** the groups matched so far, by name *)
Definition captures : Type := dict string.

(** The greedy repetition [p{lo,hi}] of a character class: take one more
    character while allowed, and give characters back one at a time while
    the rest of the pattern fails. [lo] and [hi] count what is still to
    take. *)
Fixpoint greedy {A : Type} (p : ascii -> bool) (lo : nat) (hi : option nat)
  (s : string) (k : string -> option A) : option A :=
  let stop := match lo with O => k s | S _ => None end in
  match s with
  | EmptyString => stop
  | String c s' =>
      if p c && negb (match hi with Some O => true | _ => false end)
      then match greedy p (Nat.pred lo) (option_map Nat.pred hi) s' k with
           | Some res => Some res
           | None => stop
           end
      else stop
  end.

(** what was read between [s] and its suffix [s'] *)
Definition consumed (s s' : string) : string :=
  substring 0 (String.length s - String.length s') s.

Definition set_group (name : option string) (text : string) (caps : captures)
  : captures :=
  match name with
  | Some n => dict_set n text caps
  | None => caps
  end.

(** Backtracking matcher: [k] is the rest of the pattern; alternatives are
    tried left to right, repetitions and options longest first. *)
Fixpoint re_run (r : regex) (s : string) (caps : captures)
  (k : string -> captures -> option captures) : option captures :=
  match r with
  | Eps => k s caps
  | Chr c =>
      match s with
      | String c' s' => if Ascii.eqb c c' then k s' caps else None
      | EmptyString => None
      end
  | Cls p =>
      match s with
      | String c' s' => if p c' then k s' caps else None
      | EmptyString => None
      end
  | Seq r1 r2 => re_run r1 s caps (fun s' caps' => re_run r2 s' caps' k)
  | Alt r1 r2 =>
      match re_run r1 s caps k with
      | Some res => Some res
      | None => re_run r2 s caps k
      end
  | Group name r1 =>
      re_run r1 s caps (fun s' caps' => k s' (set_group name (consumed s s') caps'))
  | Rep p lo hi => greedy p lo hi s (fun s' => k s' caps)
  | Opt r1 =>
      match re_run r1 s caps k with
      | Some res => Some res
      | None => k s caps
      end
  end.

(** [re.match(r, s)]: anchored at the start only. The result is the match's
    [groupdict()]. *)
Definition re_match (r : regex) (s : string) : option captures :=
  re_run r s [] (fun _ caps => Some caps).

(** every character of [s] is in the class [p] *)
Fixpoint all_chars (p : ascii -> bool) (s : string) : bool :=
  match s with
  | EmptyString => true
  | String c s' => p c && all_chars p s'
  end.

(** [int(s)] on a string of decimal digits, of any length *)
Definition digit_value (c : ascii) : Z := Z.of_N (code c) - 48.

Fixpoint int_acc (acc : Z) (s : string) : Z :=
  match s with
  | EmptyString => acc
  | String c s' => int_acc (10 * acc + digit_value c) s'
  end.

Definition int (s : string) : Z := int_acc 0 s.

(** ** Parser *)

Module Parser.

Definition octet : regex := Rep is_digit 1 (Some 3%nat).

Definition methods : regex :=
  Alt (lit "GET") (Alt (lit "PUT") (Alt (lit "POST")
    (Alt (lit "HEAD") (Alt (lit "OPTIONS") (lit "DELETE"))))).

Definition PATTERN : regex :=
  Group (Some "IP") (times 3 (Group None (octet @@ Chr ".")) @@ octet)
  @@ Cls is_space @@ Chr "-" @@ Cls is_space @@ Chr "-" @@ Cls is_space
  @@ Chr "[" @@ Group (Some "date") (plus is_any) @@ Chr "]"
  @@ Cls is_space @@ Chr dquote @@ Group None methods @@ Cls is_space
  @@ Group (Some "page") (Group None (plus is_nonspace))
  @@ Cls is_any @@ plus is_nonspace @@ Chr dquote @@ Chr " "
  @@ plus is_digit @@ Chr " " @@ plus is_digit @@ Chr " " @@ Chr dquote
  @@ plus is_nonspace @@ Cls is_space @@ Chr dquote
  @@ Group (Some "User_Agent") (Group None (plus is_any)) @@ Chr dquote
  @@ Opt (Group None (Cls is_space
                      @@ Group (Some "time") (Group None (plus is_digit)))).

(** the dictionary [type_conversion] returns *)
Record group : Type := mkgroup {
  IP : string;
  date : datetime_date;
  page : string;
  User_Agent : string;
  time : option Z
}.

(** [type_conversion]: the date is converted first, then the time when the
    group matched. The four groups outside the optional tail are set by every
    match ([PATTERN_groups] below), so the last branch is never taken. *)
Definition type_conversion `{Host} (g : captures) : outcome group :=
  match dict_get "IP" g, dict_get "date" g,
        dict_get "page" g, dict_get "User_Agent" g with
  | Some ip, Some stamp, Some pg, Some ua =>
      match strptime_date stamp with
      | None => Raise ValueError
      | Some d =>
          Return {| IP := ip; date := d; page := pg; User_Agent := ua;
                    time := option_map int (dict_get "time" g) |}
      end
  | _, _, _, _ => Raise TypeError
  end.

Definition parse `{Host} (line : string) : outcome (option group) :=
  match re_match PATTERN line with
  | None => Return None
  | Some g => x <- type_conversion g ;; Return (Some x)
  end.

End Parser.

(** *** [PATTERN] in parts

    The pattern is the IP and the dashes, then [stamp_part]; the proofs walk
    along it part by part ([PATTERN_parts] below). *)

(** what follows the page group *)
Definition after_page : regex :=
  Cls is_any @@ plus is_nonspace @@ Chr dquote @@ Chr " "
  @@ plus is_digit @@ Chr " " @@ plus is_digit @@ Chr " " @@ Chr dquote
  @@ plus is_nonspace @@ Cls is_space @@ Chr dquote
  @@ Group (Some "User_Agent") (Group None (plus is_any)) @@ Chr dquote
  @@ Opt (Group None (Cls is_space
                      @@ Group (Some "time") (Group None (plus is_digit)))).

Definition page_group : regex :=
  Group (Some "page") (Group None (plus is_nonspace)).

(** from the space before the request *)
Definition request_part : regex :=
  Cls is_space @@ Chr dquote @@ Group None Parser.methods @@ Cls is_space
  @@ page_group @@ after_page.

(** from the bracket that opens the stamp *)
Definition stamp_part : regex :=
  Chr "[" @@ Group (Some "date") (plus is_any) @@ Chr "]" @@ request_part.

(** ** Statistics *)

Inductive report_value : Type :=
| Plain (v : pyvalue)
| ByDay (d : list (datetime_date * pyvalue)).

Module Statistics.

Record t `{Host} : Type := mk {
  _fastest_page : FastestPageStat.t;
  _slowest_page : SlowestPageStat.t;
  _slowest_average_page : SlowestAveragePageStat.t;
  _most_popular_page : MostPopularPageStat.t;
  _most_active_client : MostActiveClientStat.t;
  _most_popular_browser : MostPopularBrowserStat.t;
  _most_active_client_by_day : MostActiveClientByDayStat.t
}.

Definition init `{Host} : t :=
  {| _fastest_page := FastestPageStat.init;
     _slowest_page := SlowestPageStat.init;
     _slowest_average_page := SlowestAveragePageStat.init;
     _most_popular_page := MostPopularPageStat.init;
     _most_active_client := MostActiveClientStat.init;
     _most_popular_browser := MostPopularBrowserStat.init;
     _most_active_client_by_day :=
       MostActiveClientByDayStat.init (mkdate 2012 7 8) |}.

(** the three updates under [if group['time']:] *)
Definition update_timed `{Host} (time : Z) (page : string) (self : t) : t :=
  {| _fastest_page := FastestPageStat.update time page (_fastest_page self);
     _slowest_page := SlowestPageStat.update time page (_slowest_page self);
     _slowest_average_page :=
       SlowestAveragePageStat.update time page (_slowest_average_page self);
     _most_popular_page := _most_popular_page self;
     _most_active_client := _most_active_client self;
     _most_popular_browser := _most_popular_browser self;
     _most_active_client_by_day := _most_active_client_by_day self |}.

(** the four updates that follow it *)
Definition update_counted `{Host} (group : Parser.group) (self : t) : t :=
  {| _fastest_page := _fastest_page self;
     _slowest_page := _slowest_page self;
     _slowest_average_page := _slowest_average_page self;
     _most_popular_page :=
       MostPopularPageStat.update (Parser.page group) (_most_popular_page self);
     _most_active_client :=
       MostActiveClientStat.update (Parser.IP group) (_most_active_client self);
     _most_popular_browser :=
       MostPopularBrowserStat.update (Parser.User_Agent group)
         (_most_popular_browser self);
     _most_active_client_by_day :=
       MostActiveClientByDayStat.update (Parser.date group) (Parser.IP group)
         (_most_active_client_by_day self) |}.

(** the truth value of [group['time']]: [None] and the int 0 are false *)
Definition truthy (time : option Z) : bool :=
  match time with
  | None => false
  | Some n => negb (n =? 0)
  end.

Definition update `{Host} (group : Parser.group) (self : t) : t :=
  let self' :=
    match Parser.time group with
    | Some time =>
        if truthy (Some time)
        then update_timed time (Parser.page group) self
        else self
    | None => self
    end in
  update_counted group self'.

(** [add_line] returns nothing; an exception leaves [self] as it was when it
    was raised. *)
Definition add_line `{Host} (line : string) (self : t) : outcome unit * t :=
  match Parser.parse line with
  | Raise e => (Raise e, self)
  | Return None => (Return tt, self)
  | Return (Some grouped_data) => (Return tt, update grouped_data self)
  end.

Definition results `{Host} (self : t) : outcome (dict report_value) :=
  slowest_average <- SlowestAveragePageStat.value (_slowest_average_page self) ;;
  Return
    [ ("FastestPage", Plain (FastestPageStat.value (_fastest_page self)));
      ("MostActiveClient",
        Plain (MostActiveClientStat.value (_most_active_client self)));
      ("MostActiveClientByDay",
        ByDay (MostActiveClientByDayStat.value (_most_active_client_by_day self)));
      ("MostPopularBrowser",
        Plain (MostPopularBrowserStat.value (_most_popular_browser self)));
      ("MostPopularPage",
        Plain (MostPopularPageStat.value (_most_popular_page self)));
      ("SlowestAveragePage", Plain slowest_average);
      ("SlowestPage", Plain (SlowestPageStat.value (_slowest_page self))) ].

End Statistics.

Definition make_stat `{Host} : Statistics.t := Statistics.init.

(** ** A reference host

    IEEE binary64 arithmetic for the floats, and for [strptime] a reader of the
    fixed-width stamps [DD/Mon/YYYY:HH:MM:SS +ZZZZ] that access logs carry,
    with the calendar checked. It runs the repository's own tests below. *)

Module Reference.

Definition float_of_int (z : Z) : PrimFloat.float :=
  if z <? 0
  then PrimFloat.opp (PrimFloat.of_uint63 (Uint63.of_Z (- z)))
  else PrimFloat.of_uint63 (Uint63.of_Z z).

Definition number (s : string) : option Z :=
  if all_chars is_digit s then Some (int s) else None.

Definition months : list (string * Z) :=
  [ ("Jan", 1); ("Feb", 2); ("Mar", 3); ("Apr", 4); ("May", 5); ("Jun", 6);
    ("Jul", 7); ("Aug", 8); ("Sep", 9); ("Oct", 10); ("Nov", 11); ("Dec", 12) ].

Definition is_leap (y : Z) : bool :=
  ((y mod 4 =? 0) && negb (y mod 100 =? 0)) || (y mod 400 =? 0).

Definition days_in_month (y m : Z) : Z :=
  if m =? 2 then (if is_leap y then 29 else 28)
  else if (m =? 4) || (m =? 6) || (m =? 9) || (m =? 11) then 30
  else 31.

Definition separators_ok (s : string) : bool :=
  String.eqb (substring 2 1 s) "/" && String.eqb (substring 6 1 s) "/"
  && String.eqb (substring 11 1 s) ":" && String.eqb (substring 14 1 s) ":"
  && String.eqb (substring 17 1 s) ":" && String.eqb (substring 20 1 s) " "
  && (String.eqb (substring 21 1 s) "+" || String.eqb (substring 21 1 s) "-").

Definition strptime (s : string) : option datetime_date :=
  if negb (Nat.eqb (String.length s) 26 && separators_ok s) then None else
  match number (substring 0 2 s), dict_get (substring 3 3 s) months,
        number (substring 7 4 s), number (substring 12 2 s),
        number (substring 15 2 s), number (substring 18 2 s),
        number (substring 22 2 s), number (substring 24 2 s) with
  | Some d, Some m, Some y, Some hh, Some mm, Some ss, Some _, Some zm =>
      if (1 <=? y) && (1 <=? d) && (d <=? days_in_month y m)
         && (hh <=? 23) && (mm <=? 59) && (ss <=? 59) && (zm <=? 59)
      then Some (mkdate y m d)
      else None
  | _, _, _, _, _, _, _, _ => None
  end.

Definition host : Host := {|
  pyfloat := PrimFloat.float;
  truediv := fun a b => PrimFloat.div (float_of_int a) (float_of_int b);
  fzero := PrimFloat.zero;
  fsub := PrimFloat.sub;
  fabs := PrimFloat.abs;
  flt := PrimFloat.ltb;
  tolerance := 0x1.b7cdfd9d7bdbfp-34%float;
  strptime_date := strptime
|}.

End Reference.

(** ** Log lines written field by field

    The shape of section 4.1: what [render] writes from its fields is a line
    of the access log. [f_rest] is whatever follows the closing quote of the
    user agent: nothing, a space and the response time, or more. *)

Inductive method : Type := GET | PUT | POST | HEAD | OPTIONS | DELETE.

Definition method_name (m : method) : string :=
  match m with
  | GET => "GET"
  | PUT => "PUT"
  | POST => "POST"
  | HEAD => "HEAD"
  | OPTIONS => "OPTIONS"
  | DELETE => "DELETE"
  end.

Record log_fields : Type := mkfields {
  f_octet1 : string;
  f_octet2 : string;
  f_octet3 : string;
  f_octet4 : string;
  f_stamp : string;
  f_method : method;
  f_path : string;
  f_version : string;
  f_status : string;
  f_size : string;
  f_referrer : string;
  f_agent : string;
  f_rest : string
}.

Definition f_ip (l : log_fields) : string :=
  f_octet1 l ++ "." ++ f_octet2 l ++ "." ++ f_octet3 l ++ "." ++ f_octet4 l.

(** what stands between the method's space and the closing quote of the
    request *)
Definition request_target (l : log_fields) : string :=
  f_path l ++ " " ++ f_version l.

(** from the closing quote of the request to the end of the line *)
Definition after_request (l : log_fields) : string :=
  q ++ " " ++ f_status l ++ " " ++ f_size l ++ " " ++ q ++ f_referrer l ++ q
  ++ " " ++ q ++ f_agent l ++ q ++ f_rest l.

Definition render (l : log_fields) : string :=
  f_octet1 l ++ "." ++ f_octet2 l ++ "." ++ f_octet3 l ++ "." ++ f_octet4 l
  ++ " - - [" ++ f_stamp l ++ "] " ++ q ++ method_name (f_method l) ++ " "
  ++ f_path l ++ " " ++ f_version l ++ after_request l.

Definition nonempty (s : string) : bool :=
  match s with
  | EmptyString => false
  | String _ _ => true
  end.

Definition is_octet (s : string) : bool :=
  nonempty s && (String.length s <=? 3)%nat && all_chars is_digit s.

Definition not_bracket (c : ascii) : bool := negb (Ascii.eqb c "]").

(** The fields are of the classes the grammar names, and no closing bracket
    stands after the one that ends the stamp. *)
Definition well_formed (l : log_fields) : bool :=
  is_octet (f_octet1 l) && is_octet (f_octet2 l) && is_octet (f_octet3 l)
  && is_octet (f_octet4 l)
  && nonempty (f_stamp l) && all_chars is_any (f_stamp l)
  && nonempty (f_path l) && all_chars is_nonspace (f_path l)
  && nonempty (f_version l) && all_chars is_nonspace (f_version l)
  && nonempty (f_status l) && all_chars is_digit (f_status l)
  && nonempty (f_size l) && all_chars is_digit (f_size l)
  && all_chars is_nonspace (f_referrer l)
  && nonempty (f_agent l) && all_chars is_any (f_agent l)
  && all_chars not_bracket (f_path l) && all_chars not_bracket (f_version l)
  && all_chars not_bracket (f_referrer l) && all_chars not_bracket (f_agent l)
  && all_chars not_bracket (f_rest l).

(** the line after the bracket that closes the stamp *)
Definition request_text (l : log_fields) : string :=
  " " ++ q ++ method_name (f_method l) ++ " " ++ f_path l ++ " "
  ++ f_version l ++ after_request l.

(** the longest prefix of [s] free of white space *)
Fixpoint nonspace_run (s : string) : string :=
  match s with
  | EmptyString => EmptyString
  | String c s' =>
      if is_space c then EmptyString else String c (nonspace_run s')
  end.

(** [s] without its last character *)
Fixpoint strip_last (s : string) : string :=
  match s with
  | EmptyString => EmptyString
  | String c s' =>
      match s' with
      | EmptyString => EmptyString
      | String _ _ => String c (strip_last s')
      end
  end.

(** The page as section 4.1 words it: the maximal run of the request path
    without white space, minus its last character. *)
Definition spec_page (l : log_fields) : string :=
  strip_last (nonspace_run (request_target l)).

(** [n] repetitions are within the bound [hi] *)
Definition within (hi : option nat) (n : nat) : Prop :=
  match hi with Some h => (n <= h)%nat | None => True end.

(** ** What a pattern can read

    [reads r s s']: [r] matches a prefix of [s] and leaves [s']. This is the
    language of the pattern, without the order in which the matcher tries
    the ways to read it. *)

Inductive reads : regex -> string -> string -> Prop :=
| reads_eps s : reads Eps s s
| reads_chr c s : reads (Chr c) (String c s) s
| reads_cls (p : ascii -> bool) c s : p c = true -> reads (Cls p) (String c s) s
| reads_seq r1 r2 s s1 s2 :
    reads r1 s s1 -> reads r2 s1 s2 -> reads (r1 @@ r2) s s2
| reads_alt_l r1 r2 s s' : reads r1 s s' -> reads (Alt r1 r2) s s'
| reads_alt_r r1 r2 s s' : reads r2 s s' -> reads (Alt r1 r2) s s'
| reads_group name r s s' : reads r s s' -> reads (Group name r) s s'
| reads_rep (p : ascii -> bool) lo hi a s :
    all_chars p a = true ->
    (lo <= String.length a)%nat ->
    within hi (String.length a) ->
    reads (Rep p lo hi) (a ++ s) s
| reads_opt_some r s s' : reads r s s' -> reads (Opt r) s s'
| reads_opt_none r s : reads (Opt r) s s.

(** the named groups of a pattern *)
Fixpoint names (r : regex) : list string :=
  match r with
  | Eps | Chr _ | Cls _ | Rep _ _ _ => []
  | Seq r1 r2 | Alt r1 r2 => (names r1 ++ names r2)%list
  | Group (Some n) r1 => n :: names r1
  | Group None r1 | Opt r1 => names r1
  end.

(** the named groups that every match of the pattern sets *)
Fixpoint sure_names (r : regex) : list string :=
  match r with
  | Eps | Chr _ | Cls _ | Rep _ _ _ | Alt _ _ | Opt _ => []
  | Seq r1 r2 => (sure_names r1 ++ sure_names r2)%list
  | Group (Some n) r1 => n :: sure_names r1
  | Group None r1 => sure_names r1
  end.

(** two counting dictionaries that hold the same count at every key *)
Definition same_counts (d1 d2 : dict Z) : Prop :=
  NoDup (keys d1) /\ NoDup (keys d2)
  /\ forall k, dict_get k d1 = dict_get k d2.

(** [s1 <= s2] on Python strings *)
Definition str_le (s1 s2 : string) : Prop := String.leb s1 s2 = true.

(** ascending: every element is below all that follow it *)
Inductive ascending : list string -> Prop :=
| ascending_nil : ascending []
| ascending_cons k l :
    (forall k', In k' l -> str_le k k') -> ascending l -> ascending (k :: l).

(** ** Runs of updates *)

(** a sequence of calls of one [update], oldest first *)
Definition feed {S U : Type} (step : U -> S -> S) (us : list U) (self : S) : S :=
  fold_left (fun s u => step u s) us self.

(** a step that counts one key, or leaves the counts alone *)
Definition count_step {U : Type} (key : U -> option string) (u : U)
  (d : dict Z) : dict Z :=
  match key u with
  | Some k => dd_incr k d
  | None => d
  end.

Definition timed_update {S : Type} (update : Z -> string -> S -> S)
  (u : Z * string) : S -> S :=
  update (fst u) (snd u).

Definition by_day_update (u : datetime_date * string)
  : MostActiveClientByDayStat.t -> MostActiveClientByDayStat.t :=
  MostActiveClientByDayStat.update (fst u) (snd u).

(** ** Lines and reports of the repository's tests *)

Definition add_lines `{Host} (lines : list string) (self : Statistics.t)
  : Statistics.t :=
  fold_left (fun s line => snd (Statistics.add_line line s)) lines self.

Definition msie9 : string :=
  "Mozilla/5.0 (compatible; MSIE 9.0; Windows NT 6.1; WOW64; Trident/5.0)".

(** a log line as the tests write them *)
Definition log_line (ip stamp request tail : string) : string :=
  ip ++ " - - [" ++ stamp ++ "] " ++ q ++ request ++ q ++ " 304 211 "
  ++ q ++ "http://callider/menu-top.php" ++ q ++ " " ++ q ++ msie9 ++ q ++ tail.

Definition report (fastest client by_day browser popular slowest_avg slowest
  : string) : outcome (dict report_value) :=
  Return
    [ ("FastestPage", Plain (PyStr fastest));
      ("MostActiveClient", Plain (PyStr client));
      ("MostActiveClientByDay", ByDay [(mkdate 2012 7 8, PyStr by_day)]);
      ("MostPopularBrowser", Plain (PyStr browser));
      ("MostPopularPage", Plain (PyStr popular));
      ("SlowestAveragePage", Plain (PyStr slowest_avg));
      ("SlowestPage", Plain (PyStr slowest)) ].

(** the second line of [test_incorrect_logs], by fields and as parsed *)
Definition sample_fields : log_fields :=
  mkfields "192" "168" "74" "83" "08/Jul/2012:06:31:57 +0600" GET
    "/img/graph.png" "HTTP/1.1" "304" "211" "http://callider/menu-top.php"
    msie9 " 123".

Definition sample_group : Parser.group :=
  Parser.mkgroup "192.168.74.83" (mkdate 2012 7 8) "/img/graph.png" msie9
    (Some 123).

(** the page after [count] requests that took [total] in all *)
Definition page_after (total count : Z) : @Page.t Reference.host :=
  Page.calculate_avg_time
    {| Page._total_time := total; Page._count := count;
       Page._avg_time := fzero |}.

(** three pages on the reference host: the one seen first is far below the
    slowest average; the two others tie for it, and the one seen first of
    the two is not the one that sorts first *)
Definition tied_pages : dict (@Page.t Reference.host) :=
  SlowestAveragePageStat._pages
    (feed (timed_update (SlowestAveragePageStat.update (H := Reference.host)))
       [(100, "/c"); (300, "/b"); (300, "/a")]
       SlowestAveragePageStat.init).

(** the slowest average, 300.0, is that of "/a"; the average of "/b", seen
    before it, is 1e-11 below *)
Definition near_pages : dict (@Page.t Reference.host) :=
  [ ("/c", page_after 100 1);
    ("/b", page_after 29999999999999 (10 ^ 11));
    ("/a", page_after 300 1) ].

(** averages [0 / 1] and [1 / 10**10]: they differ by the float [1e-10] *)
Definition edge_pages : dict (@Page.t Reference.host) :=
  [ ("/a", page_after 0 1); ("/b", page_after 1 (10 ^ 10)) ].

(** ** The repository's tests, run on the reference host *)

Section Tests.

#[local] Existing Instance Reference.host.

Example test_logs_without_time :
  Statistics.results
    (add_lines
       [ log_line "192.168.74.82" "08/Jul/2012:06:31:57 +0600"
           "GET /style-menu-top.css HTTP/1.1" EmptyString;
         log_line "192.168.74.83" "08/Jul/2012:06:31:57 +0600"
           "GET /img/graph.png HTTP/1.1" EmptyString;
         log_line "192.168.74.82" "09/Jul/2012:06:31:57 +0600"
           "GET /img/graph.png HTTP/1.1" EmptyString ]
       make_stat)
  = report EmptyString "192.168.74.82" "192.168.74.82" msie9 "/img/graph.png"
      EmptyString EmptyString.
Proof. vm_compute. reflexivity. Qed.

Example test_incorrect_logs :
  Statistics.results
    (add_lines
       [ "192.fdfdfdfdfdfdfdfdf " ++ q ++ "fdfledfdfdffdfdfdfdfdf/1.1" ++ q
         ++ " 304 211 " ++ q
         ++ "http://callider/mefdfdfdfdfdfible; MSIE 9.0; Winfdfdfdfdfdf5.0)"
         ++ q;
         log_line "192.168.74.83" "08/Jul/2012:06:31:57 +0600"
           "GET /img/graph.png HTTP/1.1" " 123";
         log_line "192.168.74.82" "09/Jul/2012:06:31:57 +0600"
           "GET /img/r.png HTTP/1.1" " 321" ]
       make_stat)
  = report "/img/graph.png" "192.168.74.82" "192.168.74.83" msie9
      "/img/graph.png" "/img/r.png" "/img/r.png".
Proof. vm_compute. reflexivity. Qed.

Example test_lexicographic_order :
  let actual :=
    Statistics.results
      (add_lines
         [ log_line "192.168.74.82" "08/Jul/2012:06:31:57 +0600"
             "GET /vfdh.css HTTP/1.1" EmptyString;
           log_line "192.168.74.80" "08/Jul/2012:06:31:57 +0600"
             "GET /bca.png HTTP/1.1" " 123";
           log_line "192.168.74.83" "09/Jul/2012:06:31:57 +0600"
             "GET /abc.png HTTP/1.1" " 321" ]
         make_stat) in
  (actual <- actual ;;
   Return (dict_get "MostPopularPage" actual, dict_get "MostActiveClient" actual))
  = Return (Some (Plain (PyStr "/abc.png")),
            Some (Plain (PyStr "192.168.74.80"))).
Proof. vm_compute. reflexivity. Qed.

Example test_empty_logs :
  Statistics.results make_stat
  = report EmptyString EmptyString EmptyString EmptyString EmptyString
      EmptyString EmptyString.
Proof. vm_compute. reflexivity. Qed.

(** a response time of 0 is read, and the timed accumulators stay empty *)
Example zero_time_line :
  Statistics.results
    (add_lines
       [ log_line "192.168.74.82" "08/Jul/2012:06:31:57 +0600"
           "GET /img/graph.png HTTP/1.1" " 0" ]
       make_stat)
  = report EmptyString "192.168.74.82" "192.168.74.82" msie9 "/img/graph.png"
      EmptyString EmptyString.
Proof. vm_compute. reflexivity. Qed.

(** a response time above 10**10 is the slowest, and is not the fastest *)
Example huge_time_line :
  Statistics.results
    (add_lines
       [ log_line "192.168.74.82" "08/Jul/2012:06:31:57 +0600"
           "GET /img/graph.png HTTP/1.1" " 20000000000" ]
       make_stat)
  = report EmptyString "192.168.74.82" "192.168.74.82" msie9 "/img/graph.png"
      "/img/graph.png" "/img/graph.png".
Proof. vm_compute. reflexivity. Qed.

End Tests.

(** * Properties *)

(** ** Strings *)

Lemma append_assoc (a b c : string) : (a ++ b) ++ c = a ++ (b ++ c).
Proof.
  induction a as [|x a IH]; simpl; [reflexivity | now rewrite IH].
Qed.

Lemma append_nil_r (a : string) : a ++ EmptyString = a.
Proof.
  induction a as [|x a IH]; simpl; [reflexivity | now rewrite IH].
Qed.

Lemma length_append (a b : string) :
  String.length (a ++ b) = (String.length a + String.length b)%nat.
Proof.
  induction a as [|x a IH]; simpl; [reflexivity | now rewrite IH].
Qed.

Lemma substring_prefix (a t : string) : substring 0 (String.length a) (a ++ t) = a.
Proof.
  induction a as [|x a IH]; simpl.
  - destruct t; reflexivity.
  - now rewrite IH.
Qed.

Lemma consumed_append (a t : string) : consumed (a ++ t) t = a.
Proof.
  unfold consumed. rewrite length_append.
  replace (String.length a + String.length t - String.length t)%nat
    with (String.length a) by lia.
  apply substring_prefix.
Qed.

Lemma all_chars_append (p : ascii -> bool) (a b : string) :
  all_chars p (a ++ b) = all_chars p a && all_chars p b.
Proof.
  induction a as [|x a IH]; simpl; [reflexivity |].
  rewrite IH. now rewrite andb_assoc.
Qed.

Lemma nonempty_length (s : string) : nonempty s = true -> (1 <= String.length s)%nat.
Proof. destruct s; simpl; [discriminate | lia]. Qed.

Lemma nonspace_run_stop (a : string) (c : ascii) (t : string) :
  all_chars is_nonspace a = true -> is_space c = true ->
  nonspace_run (a ++ String c t) = a.
Proof.
  intros Ha Hc. induction a as [|x a IH]; simpl.
  - now rewrite Hc.
  - simpl in Ha. apply andb_prop in Ha. destruct Ha as [Hx Ha].
    unfold is_nonspace in Hx. destruct (is_space x); [discriminate |].
    now rewrite IH.
Qed.

Lemma digits_bracket_free (s : string) :
  all_chars is_digit s = true -> all_chars not_bracket s = true.
Proof.
  induction s as [|c s IH]; simpl; [reflexivity |].
  intros H. apply andb_prop in H. destruct H as [Hc Hs].
  rewrite (IH Hs), andb_true_r.
  unfold not_bracket. destruct (Ascii.eqb_spec c "]"); [| reflexivity].
  subst c. discriminate.
Qed.

(** ** Dictionaries *)

Lemma dict_get_set {V : Type} (k k' : string) (v : V) (d : dict V) :
  dict_get k (dict_set k' v d)
  = if String.eqb k k' then Some v else dict_get k d.
Proof.
  induction d as [|[k0 v0] d IH]; simpl.
  - destruct (String.eqb k k'); reflexivity.
  - destruct (String.eqb k' k0) eqn:E0; simpl.
    + apply String.eqb_eq in E0. subst k0.
      destruct (String.eqb k k'); reflexivity.
    + rewrite IH. destruct (String.eqb k k') eqn:E1; [|reflexivity].
      apply String.eqb_eq in E1. subst k. now rewrite E0.
Qed.

Lemma dict_get_In {V : Type} (k : string) (v : V) (d : dict V) :
  dict_get k d = Some v -> In (k, v) d.
Proof.
  induction d as [|[k' v'] d IH]; simpl; [discriminate |].
  destruct (String.eqb k k') eqn:E.
  - apply String.eqb_eq in E. subst k'. intros H; inversion H. now left.
  - intros H. right. now apply IH.
Qed.

Lemma In_dict_get {V : Type} (k : string) (v : V) (d : dict V) :
  NoDup (keys d) -> In (k, v) d -> dict_get k d = Some v.
Proof.
  induction d as [|[k' v'] d IH]; simpl; intros Hnd Hin; [contradiction |].
  inversion Hnd as [|? ? Hnotin Hnd']; subst.
  destruct Hin as [Heq|Hin].
  - inversion Heq; subst. now rewrite String.eqb_refl.
  - destruct (String.eqb k k') eqn:E; [| now apply IH].
    apply String.eqb_eq in E. subst k'. exfalso. apply Hnotin.
    change k with (fst (k, v)). now apply in_map.
Qed.

Lemma dict_get_keys {V : Type} (k : string) (d : dict V) :
  In k (keys d) <-> dict_get k d <> None.
Proof.
  induction d as [|[k' v'] d IH]; simpl.
  - split; [contradiction | congruence].
  - destruct (String.eqb k k') eqn:E.
    + apply String.eqb_eq in E. subst k'. split; [discriminate | now left].
    + rewrite <- IH. split; [| now right].
      intros [->|H]; [now rewrite String.eqb_refl in E | exact H].
Qed.

Lemma keys_dict_set_old {V : Type} (k : string) (v : V) (d : dict V) :
  dict_get k d <> None -> keys (dict_set k v d) = keys d.
Proof.
  induction d as [|[k' v'] d IH]; simpl; [congruence |].
  destruct (String.eqb k k') eqn:E; simpl.
  - apply String.eqb_eq in E. now subst k'.
  - intros Hk. now rewrite IH.
Qed.

Lemma keys_dict_set_new {V : Type} (k : string) (v : V) (d : dict V) :
  dict_get k d = None -> keys (dict_set k v d) = (keys d ++ [k])%list.
Proof.
  induction d as [|[k' v'] d IH]; simpl; [reflexivity |].
  destruct (String.eqb k k') eqn:E; simpl; [discriminate |].
  intros Hk. now rewrite IH.
Qed.

Lemma dict_set_NoDup {V : Type} (k : string) (v : V) (d : dict V) :
  NoDup (keys d) -> NoDup (keys (dict_set k v d)).
Proof.
  intros Hnd. destruct (dict_get k d) as [w|] eqn:E.
  - rewrite keys_dict_set_old; [exact Hnd | congruence].
  - rewrite keys_dict_set_new by exact E.
    apply NoDup_app; [exact Hnd | repeat constructor; intros [] |].
    intros x Hx [<-|[]]. apply dict_get_keys in Hx. contradiction.
Qed.

(** ** The order of strings and [sorted] *)

Lemma str_le_trans (a b c : string) : str_le a b -> str_le b c -> str_le a c.
Proof.
  unfold str_le, String.leb. revert b c.
  induction a as [|x a IH]; intros [|y b] [|z c]; simpl; try congruence.
  unfold Ascii.compare.
  destruct (N.compare_spec (N_of_ascii x) (N_of_ascii y)) as [Exy|Lxy|Gxy];
    destruct (N.compare_spec (N_of_ascii y) (N_of_ascii z)) as [Eyz|Lyz|Gyz];
    destruct (N.compare_spec (N_of_ascii x) (N_of_ascii z)) as [Exz|Lxz|Gxz];
    try congruence; try lia.
  apply IH.
Qed.

Lemma str_le_total (a b : string) : str_le a b \/ str_le b a.
Proof. apply String.leb_total. Qed.

Lemma str_le_antisym (a b : string) : str_le a b -> str_le b a -> a = b.
Proof. apply String.leb_antisym. Qed.

Lemma str_not_le (a b : string) : String.leb a b = false -> str_le b a.
Proof.
  intros Hab. destruct (str_le_total a b) as [H|H]; [| exact H].
  unfold str_le in H. congruence.
Qed.

Lemma insert_sorted_perm (k : string) (l : list string) :
  Permutation (k :: l) (insert_sorted k l).
Proof.
  induction l as [|k' l IH]; simpl; [apply Permutation_refl |].
  destruct (String.leb k k'); [apply Permutation_refl |].
  eapply perm_trans; [apply perm_swap |]. now apply perm_skip.
Qed.

Lemma sorted_perm (l : list string) : Permutation l (sorted l).
Proof.
  induction l as [|k l IH]; simpl; [constructor |].
  eapply perm_trans; [| apply insert_sorted_perm]. now apply perm_skip.
Qed.

Lemma insert_sorted_ascending (k : string) (l : list string) :
  ascending l -> ascending (insert_sorted k l).
Proof.
  induction 1 as [|k' l Hk' Hl IH]; simpl.
  - constructor; [intros ? [] | constructor].
  - destruct (String.leb k k') eqn:E.
    + constructor; [| now constructor].
      intros x [<-|Hx]; [exact E |].
      apply str_le_trans with k'; [exact E | now apply Hk'].
    + constructor; [| exact IH].
      intros x Hx.
      apply (Permutation_in _ (Permutation_sym (insert_sorted_perm k l))) in Hx.
      destruct Hx as [<-|Hx]; [now apply str_not_le | now apply Hk'].
Qed.

Lemma sorted_ascending (l : list string) : ascending (sorted l).
Proof.
  induction l as [|k l IH]; simpl; [constructor |].
  now apply insert_sorted_ascending.
Qed.

Lemma ascending_split (l1 l2 : list string) (k : string) :
  ascending (l1 ++ k :: l2) -> forall k', In k' l2 -> str_le k k'.
Proof.
  induction l1 as [|x l1 IH]; simpl; intros Hasc; inversion Hasc; subst; auto.
Qed.

(** An ascending list is determined by its elements. *)
Lemma ascending_unique (l1 l2 : list string) :
  ascending l1 -> ascending l2 -> Permutation l1 l2 -> l1 = l2.
Proof.
  intros H1. revert l2.
  induction H1 as [|k l1 Hk Hl1 IH]; intros l2 H2 Hperm.
  - now apply Permutation_nil in Hperm.
  - destruct H2 as [|k' l2 Hk' Hl2].
    + apply Permutation_sym, Permutation_nil in Hperm. discriminate.
    + assert (k = k').
      { apply str_le_antisym.
        - assert (Hin : In k' (k :: l1))
            by (apply (Permutation_in _ (Permutation_sym Hperm)); now left).
          destruct Hin as [->|Hin]; [| now apply Hk].
          destruct (str_le_total k' k'); assumption.
        - assert (Hin : In k (k' :: l2))
            by (apply (Permutation_in _ Hperm); now left).
          destruct Hin as [->|Hin]; [| now apply Hk'].
          destruct (str_le_total k k); assumption. }
      subst k'. f_equal. apply IH; [exact Hl2 |].
      now apply Permutation_cons_inv in Hperm.
Qed.

Lemma sorted_of_perm (l1 l2 : list string) :
  Permutation l1 l2 -> sorted l1 = sorted l2.
Proof.
  intros Hperm. apply ascending_unique; try apply sorted_ascending.
  eapply perm_trans; [apply Permutation_sym, sorted_perm |].
  eapply perm_trans; [exact Hperm | apply sorted_perm].
Qed.

(** ** The builtin max *)

(** [max(values)] on ints is among the values and above them all. *)
Lemma py_max_Z (vs : list Z) :
  forall v, In (py_max Z.gtb v vs) (v :: vs)
            /\ forall x, In x (v :: vs) -> x <= py_max Z.gtb v vs.
Proof.
  unfold py_max. induction vs as [|w vs IH]; intros v; simpl.
  - split; [now left |]. intros x [<-|[]]. lia.
  - destruct (IH (if w >? v then w else v)) as [Hin Hub]. split.
    + destruct Hin as [Hin|Hin]; [| now right; right].
      rewrite <- Hin. destruct (w >? v); [right; now left | now left].
    + intros x Hx.
      assert (Hstep : x <= (if w >? v then w else v) \/ In x vs).
      { destruct Hx as [<-|[<-|Hx]]; [| | now right]; left;
          destruct (Z.gtb_spec w v); lia. }
      destruct Hstep as [Hle|Hxs].
      * specialize (Hub _ (or_introl eq_refl)). simpl in Hub. lia.
      * apply Hub. now right.
Qed.

(** The builtin [max] under a comparison that is irreflexive and transitive
    on the items: nothing is above what it returns. *)
Lemma py_max_greatest {A : Type} (lt : A -> A -> bool) (universe : list A) :
  (forall x, In x universe -> lt x x = false) ->
  (forall a b c, In a universe -> In b universe -> In c universe ->
                 lt a b = true -> lt b c = true -> lt a c = true) ->
  forall xs m, incl (m :: xs) universe ->
    let r := py_max (fun v m' => lt m' v) m xs in
    In r (m :: xs) /\ (r = m \/ lt m r = true)
    /\ forall x, In x (m :: xs) -> lt r x = false.
Proof.
  intros Hirr Htrans. unfold py_max.
  induction xs as [|w xs IH]; intros m Hincl; simpl.
  - split; [now left |]. split; [now left |].
    intros x [<-|[]]. apply Hirr, Hincl. now left.
  - assert (Hm : In m universe) by (apply Hincl; now left).
    assert (Hw : In w universe) by (apply Hincl; right; now left).
    assert (Hxs : incl xs universe).
    { intros x Hx. apply Hincl. right. now right. }
    destruct (lt m w) eqn:Emw.
    + destruct (IH w) as (Hin & Hup & Hub).
      { intros x [<-|Hx]; auto. }
      set (r := fold_left _ xs w) in *.
      assert (Hr : In r universe).
      { destruct Hin as [<-|Hin]; auto. }
      assert (Hmr : lt m r = true).
      { destruct Hup as [->|Hup]; [exact Emw | now apply (Htrans m w r)]. }
      split; [now right |]. split; [now right |].
      intros x [<-|Hx]; [| now apply Hub].
      destruct (lt r m) eqn:Erm; [| reflexivity].
      rewrite <- (Hirr m Hm). symmetry. now apply (Htrans m r m).
    + destruct (IH m) as (Hin & Hup & Hub).
      { intros x [<-|Hx]; auto. }
      set (r := fold_left _ xs m) in *.
      assert (Hr : In r universe).
      { destruct Hin as [<-|Hin]; auto. }
      split; [destruct Hin as [Hin|Hin]; [now left | right; now right] |].
      split; [exact Hup |].
      intros x [<-|[<-|Hx]].
      * apply Hub. now left.
      * destruct Hup as [->|Hup]; [exact Emw |].
        destruct (lt r w) eqn:Erw; [| reflexivity].
        rewrite <- Emw. symmetry. now apply (Htrans m r w).
      * apply Hub. now right.
Qed.

(** ** lexicographic_min *)

(** The loop of [lexicographic_min] stops at the first key of [ks] that
    holds [max_value]. *)
Lemma first_with_value_found (data : dict Z) (max_value : Z) (ks : list string) :
  (exists k, In k ks /\ dict_get k data = Some max_value) ->
  exists l1 key l2,
    ks = (l1 ++ key :: l2)%list
    /\ (forall k, In k l1 -> dict_get k data <> Some max_value)
    /\ (dict_get key data = Some max_value \/
        (dict_get key data = None /\ max_value = 0))
    /\ first_with_value data max_value ks = PyStr key.
Proof.
  induction ks as [|k0 ks IH]; intros (k & Hin & Hk); [contradiction |].
  simpl.
  assert (Hlater :
    dict_get k0 data <> Some max_value ->
    exists l1 key l2,
      (k0 :: ks = l1 ++ key :: l2)%list
      /\ (forall k, In k l1 -> dict_get k data <> Some max_value)
      /\ (dict_get key data = Some max_value \/
          (dict_get key data = None /\ max_value = 0))
      /\ first_with_value data max_value ks = PyStr key).
  { intros Hk0. destruct Hin as [->|Hin]; [congruence |].
    destruct IH as (l1 & key & l2 & -> & Hl1 & Hkey & Hres); [now exists k |].
    exists (k0 :: l1), key, l2.
    split; [reflexivity |]. split; [| now split].
    intros k' [<-|Hk']; [exact Hk0 | now apply Hl1]. }
  destruct (dict_get k0 data) as [v0|] eqn:E0.
  - destruct (v0 =? max_value) eqn:Ev.
    + apply Z.eqb_eq in Ev. subst v0.
      exists [], k0, ks.
      split; [reflexivity |]. split; [intros ? [] |]. split; [now left | reflexivity].
    + apply Z.eqb_neq in Ev. apply Hlater. congruence.
  - destruct (0 =? max_value) eqn:Ev.
    + apply Z.eqb_eq in Ev.
      exists [], k0, ks.
      split; [reflexivity |]. split; [intros ? [] |].
      split; [right; split; [exact E0 | now symmetry] | reflexivity].
    + apply Hlater. discriminate.
Qed.

(** On a mapping that is not empty, [lexicographic_min] returns a key that
    holds the greatest count and is below every key that holds it. *)
Lemma lexicographic_min_least (data : dict Z) :
  NoDup (keys data) -> data <> [] ->
  exists key count,
    lexicographic_min data = PyStr key
    /\ In (key, count) data
    /\ (forall k v, In (k, v) data -> v <= count)
    /\ (forall k, In (k, count) data -> str_le key k).
Proof.
  intros Hnd Hne. unfold lexicographic_min.
  destruct (values data) as [|v vs] eqn:Hvals.
  { destruct data; [congruence | discriminate]. }
  destruct (py_max_Z vs v) as [Hin Hub].
  set (max_value := py_max Z.gtb v vs) in *.
  rewrite <- Hvals in Hin, Hub.
  assert (Hholder : exists k, In (k, max_value) data).
  { unfold values in Hin. apply in_map_iff in Hin.
    destruct Hin as ([k w] & Hw & Hin). simpl in Hw. subst w. now exists k. }
  destruct Hholder as [km Hkm].
  destruct (first_with_value_found data max_value (sorted (keys data)))
    as (l1 & key & l2 & Hsplit & Hl1 & Hkey & Hres).
  { exists km. split; [| now apply In_dict_get].
    apply (Permutation_in _ (sorted_perm _)).
    change km with (fst (km, max_value)). now apply in_map. }
  assert (Hkeyin : In key (keys data)).
  { apply (Permutation_in _ (Permutation_sym (sorted_perm _))).
    rewrite Hsplit. apply in_or_app. right. now left. }
  destruct Hkey as [Hkey|[Hkey _]];
    [| apply dict_get_keys in Hkeyin; contradiction].
  exists key, max_value. split; [exact Hres |].
  split; [now apply dict_get_In |]. split.
  - intros k w Hkw. apply Hub. unfold values.
    change w with (snd (k, w)). now apply in_map.
  - intros k Hk.
    assert (Hks : In k (sorted (keys data))).
    { apply (Permutation_in _ (sorted_perm _)).
      change k with (fst (k, max_value)). now apply in_map. }
    rewrite Hsplit in Hks. apply in_app_or in Hks.
    destruct Hks as [Hks|[<-|Hks]].
    + exfalso. apply (Hl1 _ Hks). now apply In_dict_get.
    + destruct (str_le_total key key); assumption.
    + pose proof (sorted_ascending (keys data)) as Hasc.
      rewrite Hsplit in Hasc. now apply (ascending_split _ _ _ Hasc).
Qed.

(** C3: [lexicographic_min] returns the empty string on the empty mapping;
    on any other counting mapping (a dict: its keys are pairwise distinct) it
    returns a key that holds the greatest count of the mapping and is the
    least, in the order of strings, of the keys that hold it. *)
Theorem lexicographic_min_spec (data : dict Z) :
  NoDup (keys data) ->
  (data = [] -> lexicographic_min data = PyStr EmptyString)
  /\ (data <> [] ->
      exists key count,
        lexicographic_min data = PyStr key
        /\ In (key, count) data
        /\ (forall k v, In (k, v) data -> v <= count)
        /\ (forall k, In (k, count) data -> String.leb key k = true)).
Proof.
  intros Hnd. split.
  - intros ->. reflexivity.
  - intros Hne. exact (lexicographic_min_least data Hnd Hne).
Qed.

Lemma lexicographic_min_spec_witness :
  NoDup (keys [("/b", 2); ("/a", 2); ("/c", 1)])
  /\ exists key count,
       lexicographic_min [("/b", 2); ("/a", 2); ("/c", 1)] = PyStr key
       /\ In (key, count) [("/b", 2); ("/a", 2); ("/c", 1)]
       /\ (forall k v, In (k, v) [("/b", 2); ("/a", 2); ("/c", 1)] -> v <= count)
       /\ (forall k, In (k, count) [("/b", 2); ("/a", 2); ("/c", 1)] ->
                     String.leb key k = true).
Proof.
  assert (Hnd : NoDup (keys [("/b", 2); ("/a", 2); ("/c", 1)])).
  { simpl. repeat constructor; simpl; intuition discriminate. }
  split; [exact Hnd |].
  apply (lexicographic_min_spec _ Hnd). discriminate.
Defined.

(** [lexicographic_min] depends on the counts only, not on the order of
    the entries. *)
Lemma lexicographic_min_ext (d1 d2 : dict Z) :
  same_counts d1 d2 -> lexicographic_min d1 = lexicographic_min d2.
Proof.
  intros (Hnd1 & Hnd2 & Hget).
  destruct d1 as [|[k1 v1] d1'].
  - destruct d2 as [|[k2 v2] d2']; [reflexivity |].
    specialize (Hget k2). simpl in Hget. rewrite String.eqb_refl in Hget.
    discriminate.
  - destruct d2 as [|[k2 v2] d2'].
    { specialize (Hget k1). simpl in Hget. rewrite String.eqb_refl in Hget.
      discriminate. }
    set (e1 := (k1, v1) :: d1') in *. set (e2 := (k2, v2) :: d2') in *.
    destruct (lexicographic_min_least e1 Hnd1) as (a & ca & Ra & Ia & Ua & La);
      [discriminate |].
    destruct (lexicographic_min_least e2 Hnd2) as (b & cb & Rb & Ib & Ub & Lb);
      [discriminate |].
    assert (Hmove12 : forall k v, In (k, v) e1 -> In (k, v) e2).
    { intros k v Hin. apply dict_get_In. rewrite <- Hget.
      now apply In_dict_get. }
    assert (Hmove21 : forall k v, In (k, v) e2 -> In (k, v) e1).
    { intros k v Hin. apply dict_get_In. rewrite Hget.
      now apply In_dict_get. }
    assert (ca = cb).
    { pose proof (Ub _ _ (Hmove12 _ _ Ia)). pose proof (Ua _ _ (Hmove21 _ _ Ib)).
      lia. }
    subst cb. rewrite Ra, Rb. f_equal. apply str_le_antisym.
    + apply La. now apply Hmove21.
    + apply Lb. now apply Hmove12.
Qed.

(** ** The four counting accumulators *)

Lemma feed_app {S U : Type} (step : U -> S -> S) (us vs : list U) (self : S) :
  feed step (us ++ vs) self = feed step vs (feed step us self).
Proof. unfold feed. apply fold_left_app. Qed.

Lemma feed_cons {S U : Type} (step : U -> S -> S) (u : U) (us : list U)
  (self : S) :
  feed step (u :: us) self = feed step us (step u self).
Proof. reflexivity. Qed.

(** the count that a [defaultdict(int)] reads at a key *)
Lemma dd_incr_get (k k' : string) (d : dict Z) :
  dict_get k (dd_incr k' d)
  = if String.eqb k k'
    then Some (match dict_get k' d with Some v => v | None => 0 end + 1)
    else dict_get k d.
Proof.
  unfold dd_incr, dd_getitem.
  destruct (dict_get k' d) as [v|] eqn:E; rewrite !dict_get_set;
    destruct (String.eqb k k'); reflexivity.
Qed.

Lemma dd_incr_NoDup (k : string) (d : dict Z) :
  NoDup (keys d) -> NoDup (keys (dd_incr k d)).
Proof.
  intros Hnd. unfold dd_incr, dd_getitem.
  destruct (dict_get k d); auto using dict_set_NoDup.
Qed.

Lemma same_counts_refl (d : dict Z) : NoDup (keys d) -> same_counts d d.
Proof. intros Hnd. repeat split; auto. Qed.

Lemma same_counts_trans (d1 d2 d3 : dict Z) :
  same_counts d1 d2 -> same_counts d2 d3 -> same_counts d1 d3.
Proof.
  intros (H1 & _ & H12) (_ & H3 & H23). repeat split; auto.
  intros k. now rewrite H12.
Qed.

Lemma same_counts_incr (k : string) (d1 d2 : dict Z) :
  same_counts d1 d2 -> same_counts (dd_incr k d1) (dd_incr k d2).
Proof.
  intros (H1 & H2 & H12). repeat split; auto using dd_incr_NoDup.
  intros k'. rewrite !dd_incr_get, !H12. reflexivity.
Qed.

Lemma same_counts_swap (a b : string) (d : dict Z) :
  NoDup (keys d) ->
  same_counts (dd_incr a (dd_incr b d)) (dd_incr b (dd_incr a d)).
Proof.
  intros Hnd. repeat split; auto using dd_incr_NoDup.
  intros k. rewrite !dd_incr_get.
  destruct (String.eqb k a) eqn:Eka; destruct (String.eqb k b) eqn:Ekb;
    try reflexivity.
  - apply String.eqb_eq in Eka, Ekb. subst a b.
    rewrite String.eqb_refl. reflexivity.
  - apply String.eqb_eq in Eka. subst a. rewrite Ekb. reflexivity.
  - apply String.eqb_eq in Ekb. subst b. rewrite Eka. reflexivity.
Qed.

Lemma same_counts_step {U : Type} (key : U -> option string) (u : U)
  (d1 d2 : dict Z) :
  same_counts d1 d2 -> same_counts (count_step key u d1) (count_step key u d2).
Proof.
  intros Hd. unfold count_step.
  destruct (key u); [now apply same_counts_incr | exact Hd].
Qed.

Lemma same_counts_steps {U : Type} (key : U -> option string) (us : list U) :
  forall d1 d2, same_counts d1 d2 ->
  same_counts (feed (count_step key) us d1) (feed (count_step key) us d2).
Proof.
  induction us as [|u us IH]; intros d1 d2 Hd; [exact Hd |].
  rewrite !feed_cons. now apply IH, same_counts_step.
Qed.

(** Steps that count commute, up to the order of the entries. *)
Lemma same_counts_feed {U : Type} (key : U -> option string) (us1 us2 : list U) :
  Permutation us1 us2 ->
  forall d1 d2, same_counts d1 d2 ->
  same_counts (feed (count_step key) us1 d1) (feed (count_step key) us2 d2).
Proof.
  induction 1 as [| u us1 us2 _ IH | u v us | us1 us2 us3 _ IH12 _ IH23];
    intros d1 d2 Hd.
  - exact Hd.
  - rewrite !feed_cons. now apply IH, same_counts_step.
  - rewrite !feed_cons. apply same_counts_steps.
    apply same_counts_trans
      with (count_step key v (count_step key u d1)).
    + destruct Hd as (H1 & _ & _). unfold count_step.
      destruct (key u) as [a|], (key v) as [b|];
        auto using same_counts_swap, same_counts_refl, dd_incr_NoDup.
    + now apply same_counts_step, same_counts_step.
  - apply same_counts_trans with (feed (count_step key) us2 d1).
    + apply IH12. destruct Hd as (H1 & _ & _). now apply same_counts_refl.
    + now apply IH23.
Qed.

Lemma popular_pages_feed (us : list string) :
  forall self,
    MostPopularPageStat._pages (feed MostPopularPageStat.update us self)
    = feed (count_step Some) us (MostPopularPageStat._pages self).
Proof.
  induction us as [|u us IH]; intros self; [reflexivity |].
  rewrite !feed_cons, IH. reflexivity.
Qed.

Lemma active_clients_feed (us : list string) :
  forall self,
    MostActiveClientStat._clients (feed MostActiveClientStat.update us self)
    = feed (count_step Some) us (MostActiveClientStat._clients self).
Proof.
  induction us as [|u us IH]; intros self; [reflexivity |].
  rewrite !feed_cons, IH. reflexivity.
Qed.

Lemma popular_browsers_feed (us : list string) :
  forall self,
    MostPopularBrowserStat._browsers (feed MostPopularBrowserStat.update us self)
    = feed (count_step Some) us (MostPopularBrowserStat._browsers self).
Proof.
  induction us as [|u us IH]; intros self; [reflexivity |].
  rewrite !feed_cons, IH. reflexivity.
Qed.

Lemma by_day_feed (target : datetime_date) (ds : list (datetime_date * string)) :
  forall self,
    MostActiveClientByDayStat._date self = target ->
    MostActiveClientByDayStat._date (feed by_day_update ds self) = target
    /\ MostActiveClientByDayStat._clients (feed by_day_update ds self)
       = feed (count_step (fun u : datetime_date * string =>
                             if date_eqb target (fst u) then Some (snd u)
                             else None))
           ds (MostActiveClientByDayStat._clients self).
Proof.
  induction ds as [|u ds IH]; intros self Hdate; [now split |].
  rewrite !feed_cons.
  assert (Hstep : MostActiveClientByDayStat._date (by_day_update u self) = target
                  /\ MostActiveClientByDayStat._clients (by_day_update u self)
                     = count_step (fun u : datetime_date * string =>
                                     if date_eqb target (fst u) then Some (snd u)
                                     else None)
                         u (MostActiveClientByDayStat._clients self)).
  { unfold by_day_update, MostActiveClientByDayStat.update, count_step.
    rewrite Hdate. destruct (date_eqb target (fst u)); simpl; auto. }
  destruct Hstep as [Hd Hc].
  destruct (IH _ Hd) as [Hd' Hc']. split; [exact Hd' |].
  now rewrite Hc', Hc.
Qed.

(** C4: on each of the four counting accumulators, in any state, two runs
    of updates that are permutations of each other leave the same
    [value()]. *)
Theorem popularity_order_irrelevant
  (pages : MostPopularPageStat.t) (clients : MostActiveClientStat.t)
  (browsers : MostPopularBrowserStat.t) (by_day : MostActiveClientByDayStat.t)
  (us1 us2 : list string) (ds1 ds2 : list (datetime_date * string)) :
  NoDup (keys (MostPopularPageStat._pages pages)) ->
  NoDup (keys (MostActiveClientStat._clients clients)) ->
  NoDup (keys (MostPopularBrowserStat._browsers browsers)) ->
  NoDup (keys (MostActiveClientByDayStat._clients by_day)) ->
  Permutation us1 us2 ->
  Permutation ds1 ds2 ->
  MostPopularPageStat.value (feed MostPopularPageStat.update us1 pages)
  = MostPopularPageStat.value (feed MostPopularPageStat.update us2 pages)
  /\ MostActiveClientStat.value (feed MostActiveClientStat.update us1 clients)
     = MostActiveClientStat.value (feed MostActiveClientStat.update us2 clients)
  /\ MostPopularBrowserStat.value
       (feed MostPopularBrowserStat.update us1 browsers)
     = MostPopularBrowserStat.value
         (feed MostPopularBrowserStat.update us2 browsers)
  /\ MostActiveClientByDayStat.value (feed by_day_update ds1 by_day)
     = MostActiveClientByDayStat.value (feed by_day_update ds2 by_day).
Proof.
  intros Hp Hc Hb Hd Hus Hds.
  unfold MostPopularPageStat.value, MostActiveClientStat.value,
    MostPopularBrowserStat.value, MostActiveClientByDayStat.value.
  rewrite !popular_pages_feed, !active_clients_feed, !popular_browsers_feed.
  destruct (by_day_feed _ ds1 by_day eq_refl) as [Hd1 Hc1].
  destruct (by_day_feed _ ds2 by_day eq_refl) as [Hd2 Hc2].
  rewrite Hd1, Hd2, Hc1, Hc2.
  split; [| split; [| split]].
  - apply lexicographic_min_ext, same_counts_feed; auto using same_counts_refl.
  - apply lexicographic_min_ext, same_counts_feed; auto using same_counts_refl.
  - apply lexicographic_min_ext, same_counts_feed; auto using same_counts_refl.
  - do 2 f_equal.
    apply lexicographic_min_ext, same_counts_feed; auto using same_counts_refl.
Qed.

Lemma popularity_order_irrelevant_witness :
  MostPopularPageStat.value
    (feed MostPopularPageStat.update ["/b"; "/a"; "/b"; "/a"]
       MostPopularPageStat.init)
  = MostPopularPageStat.value
      (feed MostPopularPageStat.update ["/a"; "/b"; "/b"; "/a"]
         MostPopularPageStat.init)
  /\ MostActiveClientByDayStat.value
       (feed by_day_update
          [(mkdate 2012 7 8, "192.168.74.83"); (mkdate 2012 7 9, "192.168.74.82");
           (mkdate 2012 7 8, "192.168.74.82")]
          (MostActiveClientByDayStat.init (mkdate 2012 7 8)))
     = MostActiveClientByDayStat.value
         (feed by_day_update
            [(mkdate 2012 7 9, "192.168.74.82"); (mkdate 2012 7 8, "192.168.74.83");
             (mkdate 2012 7 8, "192.168.74.82")]
            (MostActiveClientByDayStat.init (mkdate 2012 7 8))).
Proof.
  assert (Hus : Permutation ["/b"; "/a"; "/b"; "/a"] ["/a"; "/b"; "/b"; "/a"])
    by apply perm_swap.
  assert (Hds : Permutation
            [(mkdate 2012 7 8, "192.168.74.83"); (mkdate 2012 7 9, "192.168.74.82");
             (mkdate 2012 7 8, "192.168.74.82")]
            [(mkdate 2012 7 9, "192.168.74.82"); (mkdate 2012 7 8, "192.168.74.83");
             (mkdate 2012 7 8, "192.168.74.82")])
    by apply perm_swap.
  pose proof (popularity_order_irrelevant
                MostPopularPageStat.init MostActiveClientStat.init
                MostPopularBrowserStat.init
                (MostActiveClientByDayStat.init (mkdate 2012 7 8))
                _ _ _ _
                (NoDup_nil _) (NoDup_nil _) (NoDup_nil _) (NoDup_nil _) Hus Hds)
    as (Hpages & _ & _ & Hday).
  split; [exact Hpages | exact Hday].
Defined.

(** ** Page.max *)

(** *** [<] and [abs(x - y)] on binary64 floats *)

(** a float compares equal to itself, or not at all (nan) *)
Lemma SFcompare_refl (x : spec_float) :
  SFcompare x x = None \/ SFcompare x x = Some Eq.
Proof.
  destruct x as [s | s | | s m e]; simpl; auto.
  - destruct s; auto.
  - rewrite Z.compare_refl, Pos.compare_cont_refl. destruct s; auto.
Qed.

Lemma SFltb_irrefl (x : spec_float) : SFltb x x = false.
Proof.
  unfold SFltb. destruct (SFcompare_refl x) as [-> | ->]; reflexivity.
Qed.

(** [<] on two finite floats, by sign, exponent and mantissa *)
Lemma SFltb_finite s1 m1 e1 s2 m2 e2 :
  SFltb (S754_finite s1 m1 e1) (S754_finite s2 m2 e2) = true <->
  match s1, s2 with
  | true, false => True
  | false, true => False
  | false, false => e1 < e2 \/ (e1 = e2 /\ (m1 < m2)%positive)
  | true, true => e2 < e1 \/ (e1 = e2 /\ (m2 < m1)%positive)
  end.
Proof.
  unfold SFltb, SFcompare. rewrite Pos.compare_cont_spec. simpl.
  destruct s1, s2.
  - destruct (Z.compare_spec e1 e2) as [He | He | He];
      [ destruct (Pos.compare_spec m1 m2) as [Hm | Hm | Hm]; simpl | | ];
      (split; [ try discriminate; intros _; lia | try (intros _; reflexivity); lia ]).
  - split; trivial.
  - split; [discriminate | contradiction].
  - destruct (Z.compare_spec e1 e2) as [He | He | He];
      [ destruct (Pos.compare_spec m1 m2) as [Hm | Hm | Hm]; simpl | | ];
      (split; [ try discriminate; intros _; lia | try (intros _; reflexivity); lia ]).
Qed.

Lemma SFltb_trans (x y z : spec_float) :
  SFltb x y = true -> SFltb y z = true -> SFltb x z = true.
Proof.
  destruct x as [sx | sx | | sx mx ex], y as [sy | sy | | sy my ey],
    z as [sz | sz | | sz mz ez];
    try (rewrite !SFltb_finite; destruct sx, sy, sz; intros; lia);
    unfold SFltb; simpl;
    repeat match goal with s : bool |- _ => destruct s end;
    simpl; try discriminate; try reflexivity;
    try (destruct (ey ?= ez); discriminate);
    try (destruct (ex ?= ey); discriminate);
    try (destruct (Z.compare _ _); try discriminate;
         try (destruct (Pos.compare_cont _ _ _); discriminate)).
Qed.

Lemma float_ltb_irrefl (x : float) : (x <? x)%float = false.
Proof. rewrite ltb_spec. apply SFltb_irrefl. Qed.

Lemma float_ltb_trans (x y z : float) :
  (x <? y)%float = true -> (y <? z)%float = true -> (x <? z)%float = true.
Proof. rewrite !ltb_spec. apply SFltb_trans. Qed.

(** what is neither nan nor infinite is a zero or a finite number *)
Lemma is_finite_SF (x : float) :
  is_finite x = true ->
  (exists s, Prim2SF x = S754_zero s) \/ (exists s m e, Prim2SF x = S754_finite s m e).
Proof.
  unfold is_finite, is_nan, is_infinity.
  rewrite !eqb_spec, abs_spec.
  replace (Prim2SF infinity) with (S754_infinity false) by (vm_compute; reflexivity).
  destruct (Prim2SF x) as [s | s | | s m e]; simpl.
  - eauto.
  - rewrite orb_true_r. discriminate.
  - discriminate.
  - eauto 6.
Qed.

(** [abs(x - x)] is [0.0] for a finite [x] *)
Lemma sub_self (x : float) :
  is_finite x = true -> Prim2SF (abs (x - x)) = S754_zero false.
Proof.
  intros Hx. rewrite abs_spec, sub_spec.
  destruct (is_finite_SF x Hx) as [[s ->] | (s & m & e & ->)].
  - destruct s; reflexivity.
  - unfold SF64sub, SFsub. rewrite Z.sub_diag. reflexivity.
Qed.

(** a finite float is within any positive tolerance of itself *)
Lemma within_self (x tol : float) :
  is_finite x = true -> (0 <? tol)%float = true -> (abs (x - x) <? tol)%float = true.
Proof.
  intros Hx Htol. rewrite ltb_spec, sub_self by assumption.
  rewrite ltb_spec in Htol.
  replace (Prim2SF 0) with (S754_zero false) in Htol by (vm_compute; reflexivity).
  exact Htol.
Qed.

(** *** The scan *)

(** The loop of [Page.max] returns the first name, in the order of the
    mapping, whose page is close to [m]. *)
Lemma first_close_scan `{Host} (pages : dict Page.t) (m : Page.t) :
  NoDup (keys pages) ->
  forall todo done, pages = (done ++ todo)%list ->
  (exists e, In e todo /\ Page.close m (snd e) = true) ->
  exists before name p after,
    todo = (before ++ (name, p) :: after)%list
    /\ Page.close m p = true
    /\ (forall e, In e before -> Page.close m (snd e) = false)
    /\ Page.first_close pages m (keys todo) = Return (PyStr name).
Proof.
  intros Hnd. induction todo as [|[k0 p0] todo IH]; intros done Hsplit (e & He & Hclose).
  - contradiction.
  - simpl.
    assert (Hget : dict_get k0 pages = Some p0).
    { apply In_dict_get; [exact Hnd |]. rewrite Hsplit.
      apply in_or_app. right. now left. }
    rewrite Hget. destruct (Page.close m p0) eqn:E0.
    + exists [], k0, p0, todo. repeat split; auto. intros ? [].
    + destruct (IH (done ++ [(k0, p0)])%list)
        as (before & name & p & after & -> & Hp & Hbefore & Hres).
      * rewrite <- app_assoc. exact Hsplit.
      * exists e. split; [| exact Hclose].
        destruct He as [<-|He]; [simpl in Hclose; congruence | exact He].
      * exists ((k0, p0) :: before), name, p, after. repeat split; auto.
        intros e' [<-|He']; [exact E0 | now apply Hbefore].
Qed.

(** On any host: when [<] is irreflexive and transitive on the averages at
    hand and each average is within the tolerance of itself, [Page.max]
    returns the first name close to an entry that nothing is above. *)
Lemma Page_max_scan `{Host} (pages : dict Page.t) :
  NoDup (keys pages) ->
  pages <> [] ->
  (forall p, In p (values pages) ->
             flt (Page.avg_time p) (Page.avg_time p) = false) ->
  (forall a b c, In a (values pages) -> In b (values pages) ->
                 In c (values pages) ->
                 flt (Page.avg_time a) (Page.avg_time b) = true ->
                 flt (Page.avg_time b) (Page.avg_time c) = true ->
                 flt (Page.avg_time a) (Page.avg_time c) = true) ->
  (forall p, In p (values pages) -> Page.close p p = true) ->
  exists slowest before name p after,
    In slowest (values pages)
    /\ (forall p', In p' (values pages) ->
                   flt (Page.avg_time slowest) (Page.avg_time p') = false)
    /\ pages = (before ++ (name, p) :: after)%list
    /\ Page.close slowest p = true
    /\ (forall e, In e before -> Page.close slowest (snd e) = false)
    /\ Page.max pages = Return (PyStr name).
Proof.
  intros Hnd Hne Hirr Htrans Hself. unfold Page.max.
  destruct (values pages) as [|p0 ps] eqn:Hvals.
  { destruct pages; [congruence | discriminate]. }
  destruct (py_max_greatest
              (fun a b => flt (Page.avg_time a) (Page.avg_time b))
              (p0 :: ps) Hirr Htrans ps p0 (incl_refl _))
    as (Hin & _ & Hub).
  set (slowest := py_max _ p0 ps) in *.
  destruct (first_close_scan pages slowest Hnd pages [] eq_refl)
    as (before & name & p & after & Hsplit & Hp & Hbefore & Hres).
  { unfold values in Hvals.
    assert (Hin' : In slowest (map snd pages)) by (rewrite Hvals; exact Hin).
    apply in_map_iff in Hin'. destruct Hin' as (e & He & Hin').
    exists e. split; [exact Hin' |]. rewrite He. apply Hself. exact Hin. }
  exists slowest, before, name, p, after. repeat split; auto.
Qed.

(** [add_time] keeps the sum and the number of the times added, and the
    average is their quotient. *)
Lemma add_time_totals `{Host} (times : list Z) (self : Page.t) :
  times <> [] ->
  feed Page.add_time times self
  = Page.calculate_avg_time
      {| Page._total_time := Page._total_time self + fold_right Z.add 0 times;
         Page._count := Page._count self + Z.of_nat (List.length times);
         Page._avg_time := Page._avg_time self |}.
Proof.
  revert self. induction times as [|time times IH]; intros self Hne.
  - congruence.
  - destruct times as [|time' times].
    + unfold feed. simpl. unfold Page.add_time, Page.calculate_avg_time. simpl.
      rewrite Z.add_0_r. reflexivity.
    + change (feed Page.add_time (time :: time' :: times) self)
        with (feed Page.add_time (time' :: times) (Page.add_time time self)).
      rewrite IH by discriminate.
      unfold Page.add_time, Page.calculate_avg_time.
      cbn [Page._total_time Page._count Page._avg_time].
      replace (Page._total_time self + time
               + fold_right Z.add 0 (time' :: times))
        with (Page._total_time self
              + fold_right Z.add 0 (time :: time' :: times))
        by (cbn [fold_right]; lia).
      replace (Page._count self + 1 + Z.of_nat (List.length (time' :: times)))
        with (Page._count self + Z.of_nat (List.length (time :: time' :: times)))
        by (cbn [List.length]; lia).
      reflexivity.
Qed.

(** C5, amended: on binary64 floats, for a mapping that is not empty and
    whose averages are finite (as every quotient of two ints is),
    [Page.max] returns the first name, in the order of insertion, whose
    stored average [a] satisfies [abs(a - m) < 0.1**10], where [m] is the
    average of an entry that no entry's average is above. The bound is the
    float [0.1**10 = 0x1.b7cdfd9d7bdbfp-34 = 1.0000000000000006e-10], which
    is not the float [1e-10]. Every name before the one returned fails the
    test; the order is that of first insertion, not that of the names. *)
Theorem Page_max_first_within_tolerance
  (pages : dict (@Page.t Reference.host)) :
  NoDup (keys pages) ->
  pages <> [] ->
  (forall p, In p (values pages) ->
             PrimFloat.is_finite (Page._avg_time p) = true) ->
  exists slowest before name p after,
    In slowest (values pages)
    /\ (forall p', In p' (values pages) ->
          PrimFloat.ltb (Page._avg_time slowest) (Page._avg_time p') = false)
    /\ pages = (before ++ (name, p) :: after)%list
    /\ PrimFloat.ltb
         (PrimFloat.abs
            (PrimFloat.sub (Page._avg_time p) (Page._avg_time slowest)))
         0x1.b7cdfd9d7bdbfp-34%float = true
    /\ (forall e, In e before ->
          PrimFloat.ltb
            (PrimFloat.abs
               (PrimFloat.sub (Page._avg_time (snd e))
                  (Page._avg_time slowest)))
            0x1.b7cdfd9d7bdbfp-34%float = false)
    /\ Page.max pages = Return (PyStr name).
Proof.
  intros Hnd Hne Hfin.
  apply (Page_max_scan (H := Reference.host) pages Hnd Hne).
  - intros p _. apply float_ltb_irrefl.
  - intros a b c _ _ _. apply float_ltb_trans.
  - intros p Hp. apply within_self; [apply Hfin, Hp | vm_compute; reflexivity].
Qed.

Lemma Page_max_first_within_tolerance_witness :
  (keys tied_pages = ["/c"; "/b"; "/a"]
   /\ Page.max tied_pages = Return (PyStr "/b")
   /\ exists slowest before name p after,
        In slowest (values tied_pages)
        /\ (forall p', In p' (values tied_pages) ->
              PrimFloat.ltb (Page._avg_time slowest) (Page._avg_time p') = false)
        /\ tied_pages = (before ++ (name, p) :: after)%list
        /\ PrimFloat.ltb
             (PrimFloat.abs
                (PrimFloat.sub (Page._avg_time p) (Page._avg_time slowest)))
             0x1.b7cdfd9d7bdbfp-34%float = true
        /\ (forall e, In e before ->
              PrimFloat.ltb
                (PrimFloat.abs
                   (PrimFloat.sub (Page._avg_time (snd e))
                      (Page._avg_time slowest)))
                0x1.b7cdfd9d7bdbfp-34%float = false)
        /\ Page.max tied_pages = Return (PyStr name))
  /\ (keys near_pages = ["/c"; "/b"; "/a"]
      /\ (forall b a, dict_get "/b" near_pages = Some b ->
                      dict_get "/a" near_pages = Some a ->
                      PrimFloat.ltb (Page._avg_time b) (Page._avg_time a)
                      = true)
      /\ Page.max near_pages = Return (PyStr "/b")
      /\ exists slowest before name p after,
           In slowest (values near_pages)
           /\ (forall p', In p' (values near_pages) ->
                 PrimFloat.ltb (Page._avg_time slowest) (Page._avg_time p') = false)
           /\ near_pages = (before ++ (name, p) :: after)%list
           /\ PrimFloat.ltb
                (PrimFloat.abs
                   (PrimFloat.sub (Page._avg_time p) (Page._avg_time slowest)))
                0x1.b7cdfd9d7bdbfp-34%float = true
           /\ (forall e, In e before ->
                 PrimFloat.ltb
                   (PrimFloat.abs
                      (PrimFloat.sub (Page._avg_time (snd e))
                         (Page._avg_time slowest)))
                   0x1.b7cdfd9d7bdbfp-34%float = false)
           /\ Page.max near_pages = Return (PyStr name)).
Proof.
  split.
  - split; [vm_compute; reflexivity |]. split; [vm_compute; reflexivity |].
    apply (Page_max_first_within_tolerance tied_pages).
    + vm_compute. repeat constructor; simpl; intuition discriminate.
    + discriminate.
    + intros p [<-|[<-|[<-|[]]]]; vm_compute; reflexivity.
  - split; [vm_compute; reflexivity |].
    split; [intros b a Hb Ha; injection Hb as <-; injection Ha as <-;
            vm_compute; reflexivity |].
    split; [vm_compute; reflexivity |].
    apply (Page_max_first_within_tolerance near_pages).
    + vm_compute. repeat constructor; simpl; intuition discriminate.
    + discriminate.
    + intros p [<-|[<-|[<-|[]]]]; vm_compute; reflexivity.
Defined.

(** C5 as stated fails: with the float [1e-10 = 0x1.b7cdfd9d7bdbbp-34] for
    the bound, the name foretold on the averages [0 / 1] of "/a" and
    [1 / 10**10] of "/b" is "/b", whose average is the greatest and
    [abs(0.0 - 1e-10) < 1e-10] is false; [Page.max] returns "/a", since
    [abs(0.0 - 1e-10) < 0.1**10] is true. *)
Lemma Page_max_bound_is_not_1e10 :
  ~ (forall pages : dict (@Page.t Reference.host),
       NoDup (keys pages) ->
       pages <> [] ->
       (forall p, In p (values pages) ->
                  PrimFloat.is_finite (Page._avg_time p) = true) ->
       exists slowest before name p after,
         In slowest (values pages)
         /\ (forall p', In p' (values pages) ->
               PrimFloat.ltb (Page._avg_time slowest) (Page._avg_time p') = false)
         /\ pages = (before ++ (name, p) :: after)%list
         /\ PrimFloat.ltb
              (PrimFloat.abs
                 (PrimFloat.sub (Page._avg_time p) (Page._avg_time slowest)))
              0x1.b7cdfd9d7bdbbp-34%float = true
         /\ (forall e, In e before ->
               PrimFloat.ltb
                 (PrimFloat.abs
                    (PrimFloat.sub (Page._avg_time (snd e))
                       (Page._avg_time slowest)))
                 0x1.b7cdfd9d7bdbbp-34%float = false)
         /\ Page.max pages = Return (PyStr name)).
Proof.
  intros Hclaim.
  destruct (Hclaim edge_pages)
    as (slowest & before & name & p & after
        & Hin & Hub & Hsplit & Hclose & _ & Hres).
  - vm_compute. repeat constructor; simpl; intuition discriminate.
  - discriminate.
  - intros p [<-|[<-|[]]]; vm_compute; reflexivity.
  - assert (Hmax : Page.max edge_pages = Return (PyStr "/a"))
      by (vm_compute; reflexivity).
    rewrite Hmax in Hres. injection Hres as <-.
    assert (Hp : p = page_after 0 1).
    { unfold edge_pages in Hsplit.
      destruct before as [|[k1 p1] [|[k2 p2] before]].
      - injection Hsplit as Hp _. symmetry. exact Hp.
      - injection Hsplit as _ _ Hk _. discriminate.
      - destruct before; discriminate. }
    subst p.
    destruct Hin as [<-|[<-|[]]].
    + assert (Hab := Hub (page_after 1 (10 ^ 10))
                       (or_intror (or_introl eq_refl))).
      vm_compute in Hab. discriminate.
    + vm_compute in Hclose. discriminate.
Qed.

(** ** FastestPageStat and SlowestPageStat *)

(** while no time exceeds [M], neither does the stored maximum *)
Lemma slowest_bounded (M : Z) (us : list (Z * string)) :
  (forall u, In u us -> fst u <= M) ->
  forall self, SlowestPageStat._max_time self <= M ->
  SlowestPageStat._max_time (feed (timed_update SlowestPageStat.update) us self) <= M.
Proof.
  induction us as [|u us IH]; intros Hus self Hself; [exact Hself |].
  rewrite feed_cons. apply IH.
  - intros v Hv. apply Hus. now right.
  - unfold timed_update, SlowestPageStat.update.
    destruct (fst u >=? _) eqn:E; simpl; [apply Hus; now left | exact Hself].
Qed.

(** times below the stored maximum change nothing *)
Lemma slowest_ignores_smaller (us : list (Z * string)) :
  forall self, (forall u, In u us -> fst u < SlowestPageStat._max_time self) ->
  feed (timed_update SlowestPageStat.update) us self = self.
Proof.
  induction us as [|u us IH]; intros self Hus; [reflexivity |].
  rewrite feed_cons.
  assert (Hu : timed_update SlowestPageStat.update u self = self).
  { unfold timed_update, SlowestPageStat.update.
    specialize (Hus u (or_introl eq_refl)).
    destruct (fst u >=? _) eqn:E; [lia | reflexivity]. }
  rewrite Hu. apply IH. intros v Hv. apply Hus. now right.
Qed.

Lemma fastest_bounded (M : Z) (us : list (Z * string)) :
  (forall u, In u us -> M <= fst u) ->
  forall self, M <= FastestPageStat._min_time self ->
  M <= FastestPageStat._min_time (feed (timed_update FastestPageStat.update) us self).
Proof.
  induction us as [|u us IH]; intros Hus self Hself; [exact Hself |].
  rewrite feed_cons. apply IH.
  - intros v Hv. apply Hus. now right.
  - unfold timed_update, FastestPageStat.update.
    destruct (fst u <=? _) eqn:E; simpl; [apply Hus; now left | exact Hself].
Qed.

Lemma fastest_ignores_larger (us : list (Z * string)) :
  forall self, (forall u, In u us -> FastestPageStat._min_time self < fst u) ->
  feed (timed_update FastestPageStat.update) us self = self.
Proof.
  induction us as [|u us IH]; intros self Hus; [reflexivity |].
  rewrite feed_cons.
  assert (Hu : timed_update FastestPageStat.update u self = self).
  { unfold timed_update, FastestPageStat.update.
    specialize (Hus u (or_introl eq_refl)).
    destruct (fst u <=? _) eqn:E; [lia | reflexivity]. }
  rewrite Hu. apply IH. intros v Hv. apply Hus. now right.
Qed.

(** C6, amended: [update] replaces the page and the extreme time exactly
    when the time is at least (SlowestPageStat) or at most (FastestPageStat)
    the stored one. In a run of updates on a fresh accumulator whose last
    record at the extreme time is [(time, page)], [value()] is [page],
    provided the extreme is not beyond the initial one: at least 0 for the
    slowest page, at most 10**10 for the fastest. *)
Theorem extreme_page_last_tie (before after : list (Z * string)) (time : Z)
  (page : string) :
  (forall u, In u after -> fst u <> time) ->
  (forall t p self,
      (SlowestPageStat._max_time self <= t ->
       SlowestPageStat.update t p self = SlowestPageStat.mk t p)
      /\ (t < SlowestPageStat._max_time self ->
          SlowestPageStat.update t p self = self))
  /\ (forall t p self,
      (t <= FastestPageStat._min_time self ->
       FastestPageStat.update t p self = FastestPageStat.mk t p)
      /\ (FastestPageStat._min_time self < t ->
          FastestPageStat.update t p self = self))
  /\ ((forall u, In u (before ++ after) -> fst u <= time) ->
      0 <= time ->
      SlowestPageStat.value
        (feed (timed_update SlowestPageStat.update)
           (before ++ (time, page) :: after) SlowestPageStat.init)
      = PyStr page)
  /\ ((forall u, In u (before ++ after) -> time <= fst u) ->
      time <= 10 ^ 10 ->
      FastestPageStat.value
        (feed (timed_update FastestPageStat.update)
           (before ++ (time, page) :: after) FastestPageStat.init)
      = PyStr page).
Proof.
  intros Hlast.
  assert (Hslow : forall t p self,
             (SlowestPageStat._max_time self <= t ->
              SlowestPageStat.update t p self = SlowestPageStat.mk t p)
             /\ (t < SlowestPageStat._max_time self ->
                 SlowestPageStat.update t p self = self)).
  { intros t p self. unfold SlowestPageStat.update.
    destruct (t >=? _) eqn:E; split; intros; (reflexivity || lia). }
  assert (Hfast : forall t p self,
             (t <= FastestPageStat._min_time self ->
              FastestPageStat.update t p self = FastestPageStat.mk t p)
             /\ (FastestPageStat._min_time self < t ->
                 FastestPageStat.update t p self = self)).
  { intros t p self. unfold FastestPageStat.update.
    destruct (t <=? _) eqn:E; split; intros; (reflexivity || lia). }
  split; [exact Hslow |]. split; [exact Hfast |]. split.
  - intros Hmax Hpos. rewrite feed_app, feed_cons.
    unfold timed_update at 2. simpl fst. simpl snd.
    rewrite (proj1 (Hslow time page _)).
    + rewrite slowest_ignores_smaller; [reflexivity |].
      intros u Hu. simpl.
      assert (fst u <= time) by (apply Hmax, in_or_app; now right).
      specialize (Hlast u Hu). lia.
    + apply slowest_bounded; [| exact Hpos].
      intros u Hu. apply Hmax, in_or_app. now left.
  - intros Hmin Hcap. rewrite feed_app, feed_cons.
    unfold timed_update at 2. simpl fst. simpl snd.
    rewrite (proj1 (Hfast time page _)).
    + rewrite fastest_ignores_larger; [reflexivity |].
      intros u Hu. simpl.
      assert (time <= fst u) by (apply Hmin, in_or_app; now right).
      specialize (Hlast u Hu). lia.
    + apply fastest_bounded; [| exact Hcap].
      intros u Hu. apply Hmin, in_or_app. now left.
Qed.

Lemma extreme_page_last_tie_witness :
  SlowestPageStat.value
    (feed (timed_update SlowestPageStat.update)
       ([(5, "/a"); (9, "/b")] ++ (9, "/c") :: [(3, "/d")])
       SlowestPageStat.init)
  = PyStr "/c"
  /\ FastestPageStat.value
       (feed (timed_update FastestPageStat.update)
          ([(5, "/a"); (3, "/b")] ++ (3, "/c") :: [(9, "/d")])
          FastestPageStat.init)
     = PyStr "/c".
Proof.
  split.
  - apply (extreme_page_last_tie [(5, "/a"); (9, "/b")] [(3, "/d")] 9 "/c").
    + intros u [<-|[]]. simpl. lia.
    + intros u [<-|[<-|[<-|[]]]]; simpl; lia.
    + lia.
  - apply (extreme_page_last_tie [(5, "/a"); (3, "/b")] [(9, "/d")] 3 "/c").
    + intros u [<-|[]]. simpl. lia.
    + intros u [<-|[<-|[<-|[]]]]; simpl; lia.
    + lia.
Defined.

(** C6 as stated fails beyond the initial extreme: two records tie for the
    least time, 2 * 10**10, and FastestPageStat holds neither page. *)
Lemma fastest_beyond_initial_extreme :
  ~ (forall (before after : list (Z * string)) (time : Z) (page : string),
        (forall u, In u after -> fst u <> time) ->
        (forall u, In u (before ++ after) -> time <= fst u) ->
        FastestPageStat.value
          (feed (timed_update FastestPageStat.update)
             (before ++ (time, page) :: after) FastestPageStat.init)
        = PyStr page).
Proof.
  intros Hclaim.
  specialize (Hclaim [(2 * 10 ^ 10, "/a")] [] (2 * 10 ^ 10) "/b").
  assert (Hv : FastestPageStat.value
                 (feed (timed_update FastestPageStat.update)
                    ([(2 * 10 ^ 10, "/a")] ++ [(2 * 10 ^ 10, "/b")])
                    FastestPageStat.init)
               = PyStr EmptyString) by (vm_compute; reflexivity).
  rewrite Hclaim in Hv.
  - discriminate.
  - intros u [].
  - intros u [<-|[]]. simpl. lia.
Qed.

(** ** The matcher against what the pattern can read *)

Section Greedy.

Context {A : Type} (p : ascii -> bool) (k : string -> option A).

(** no way of stopping lets the rest of the pattern succeed *)
Lemma greedy_none (s : string) :
  (forall a t, s = a ++ t -> all_chars p a = true -> k t = None) ->
  forall lo hi, greedy p lo hi s k = None.
Proof.
  induction s as [|c s IH]; intros Hk lo hi; simpl.
  - destruct lo; [apply (Hk EmptyString EmptyString); reflexivity | reflexivity].
  - assert (Hstop : match lo with O => k (String c s) | S _ => None end = None).
    { destruct lo; [apply (Hk EmptyString); reflexivity | reflexivity]. }
    destruct (p c && _) eqn:Hc; [|exact Hstop].
    apply andb_prop in Hc. destruct Hc as [Hc _].
    rewrite IH; [exact Hstop |].
    intros a t -> Ha. apply (Hk (String c a) t); simpl; [reflexivity |].
    now rewrite Hc.
Qed.

(** The matcher stops after [a] when the rest succeeds there and fails after
    every longer run. *)
Lemma greedy_pick (a t : string) (res : A) :
  all_chars p a = true ->
  k t = Some res ->
  (forall a' t', a' <> EmptyString -> t = a' ++ t' ->
                 all_chars p a' = true -> k t' = None) ->
  forall lo hi, (lo <= String.length a)%nat -> within hi (String.length a) ->
  greedy p lo hi (a ++ t) k = Some res.
Proof.
  intros Ha Hk Hlater. induction a as [|c a IH]; intros lo hi Hlo Hhi.
  - simpl in Hlo. assert (lo = O) by lia. subst lo. simpl.
    destruct t as [|c t]; simpl; [exact Hk |].
    destruct (p c && _) eqn:Hc; [|exact Hk].
    apply andb_prop in Hc. destruct Hc as [Hc _].
    rewrite greedy_none; [exact Hk |].
    intros a' t' -> Ha'. apply (Hlater (String c a') t').
    + discriminate.
    + reflexivity.
    + simpl. now rewrite Hc.
  - simpl in Ha. apply andb_prop in Ha. destruct Ha as [Hc Ha].
    simpl. rewrite Hc. simpl in Hlo, Hhi.
    assert (Hroom : (match hi with Some O => true | _ => false end) = false).
    { destruct hi as [[|h]|]; simpl in Hhi; [lia | reflexivity | reflexivity]. }
    rewrite Hroom. simpl.
    rewrite (IH Ha); [reflexivity | lia |].
    destruct hi as [[|h]|]; simpl in *; [lia | lia | exact I].
Qed.

(** The matcher succeeds as soon as some way of stopping does. *)
Lemma greedy_some (a t : string) :
  all_chars p a = true ->
  k t <> None ->
  forall lo hi, (lo <= String.length a)%nat -> within hi (String.length a) ->
  greedy p lo hi (a ++ t) k <> None.
Proof.
  intros Ha Hk. induction a as [|c a IH]; intros lo hi Hlo Hhi.
  - simpl in Hlo. assert (lo = O) by lia. subst lo. simpl.
    destruct t as [|c t]; simpl; [exact Hk |].
    destruct (p c && _); [|exact Hk].
    destruct (greedy p _ _ t k); [discriminate | exact Hk].
  - simpl in Ha. apply andb_prop in Ha. destruct Ha as [Hc Ha].
    simpl. rewrite Hc. simpl in Hlo, Hhi.
    assert (Hroom : (match hi with Some O => true | _ => false end) = false).
    { destruct hi as [[|h]|]; simpl in Hhi; [lia | reflexivity | reflexivity]. }
    rewrite Hroom. simpl.
    assert (Hin : greedy p (Nat.pred lo) (option_map Nat.pred hi) (a ++ t) k
                  <> None).
    { apply (IH Ha); [lia |].
      destruct hi as [[|h]|]; simpl in *; [lia | lia | exact I]. }
    destruct (greedy p _ _ (a ++ t) k); [discriminate | contradiction].
Qed.

(** What the matcher returns comes from stopping after a run of the class
    within the bounds. *)
Lemma greedy_sound (s : string) (res : A) :
  forall lo hi, greedy p lo hi s k = Some res ->
  exists a t, s = a ++ t /\ all_chars p a = true
              /\ (lo <= String.length a)%nat /\ within hi (String.length a)
              /\ k t = Some res.
Proof.
  induction s as [|c s IH]; intros lo hi Hg; simpl in Hg.
  - destruct lo; [|discriminate].
    exists EmptyString, EmptyString. simpl. repeat split; auto.
    destruct hi; simpl; [lia | exact I].
  - assert (Hstop : match lo with O => k (String c s) | S _ => None end
                    = Some res ->
                    exists a t, String c s = a ++ t /\ all_chars p a = true
                      /\ (lo <= String.length a)%nat
                      /\ within hi (String.length a) /\ k t = Some res).
    { destruct lo; [|discriminate]. intros Hk.
      exists EmptyString, (String c s). simpl. repeat split; auto.
      destruct hi; simpl; [lia | exact I]. }
    destruct (p c && _) eqn:Hc; [|exact (Hstop Hg)].
    apply andb_prop in Hc. destruct Hc as [Hc Hroom].
    destruct (greedy p (Nat.pred lo) (option_map Nat.pred hi) s k) eqn:Hin;
      [|exact (Hstop Hg)].
    inversion Hg; subst a. clear Hg.
    destruct (IH _ _ Hin) as (a & t & -> & Ha & Hlo & Hhi & Hk).
    exists (String c a), t. simpl. rewrite Hc, Ha. repeat split; auto.
    + lia.
    + destruct hi as [[|h]|]; simpl in *; [discriminate | lia | exact I].
Qed.

End Greedy.

(** Whatever the pattern can read, the matcher finds a way to read, when
    the rest of the pattern succeeds there. *)
Lemma re_run_complete (r : regex) (s s' : string) :
  reads r s s' ->
  forall caps k, (forall caps', k s' caps' <> None) ->
  re_run r s caps k <> None.
Proof.
  induction 1 as [s | c s | p c s Hp | r1 r2 s s1 s2 _ IH1 _ IH2
                 | r1 r2 s s' _ IH | r1 r2 s s' _ IH | name r s s' _ IH
                 | p lo hi a s Ha Hlo Hhi | r s s' _ IH | r s];
    intros caps k Hk; simpl.
  - apply Hk.
  - rewrite Ascii.eqb_refl. apply Hk.
  - rewrite Hp. apply Hk.
  - apply IH1. intros caps'. apply IH2. exact Hk.
  - specialize (IH caps k Hk). destruct (re_run r1 s caps k); congruence.
  - specialize (IH caps k Hk). destruct (re_run r1 s caps k); [discriminate | exact IH].
  - apply IH. intros caps'. apply Hk.
  - apply greedy_some; auto.
  - specialize (IH caps k Hk). destruct (re_run r s caps k); congruence.
  - destruct (re_run r s caps k); [discriminate | apply Hk].
Qed.

(** What the matcher returns comes from a reading of the pattern: the rest
    of the pattern ran on what that reading left, with captures that differ
    from the initial ones only at the groups of the pattern, and hold every
    group that the pattern always sets. *)
Lemma re_run_sound (r : regex) :
  forall s caps k res, re_run r s caps k = Some res ->
  exists s' caps',
    k s' caps' = Some res /\ reads r s s'
    /\ (forall n, ~ In n (names r) -> dict_get n caps' = dict_get n caps)
    /\ (forall n, In n (sure_names r) -> dict_get n caps' <> None)
    /\ (forall n, dict_get n caps <> None -> dict_get n caps' <> None).
Proof.
  induction r as [| c | p | r1 IH1 r2 IH2 | r1 IH1 r2 IH2 | name r IH
                 | p lo hi | r IH];
    intros s caps k res Hrun; simpl in Hrun.
  - exists s, caps. split; [exact Hrun |]. split; [apply reads_eps |].
    split; [reflexivity |]. split; [intros n [] | auto].
  - destruct s as [|c' s]; [discriminate |].
    destruct (Ascii.eqb c c') eqn:E; [|discriminate].
    apply Ascii.eqb_eq in E. subst c'.
    exists s, caps. split; [exact Hrun |]. split; [apply reads_chr |].
    split; [reflexivity |]. split; [intros n [] | auto].
  - destruct s as [|c' s]; [discriminate |].
    destruct (p c') eqn:E; [|discriminate].
    exists s, caps. split; [exact Hrun |]. split; [now apply reads_cls |].
    split; [reflexivity |]. split; [intros n [] | auto].
  - destruct (IH1 _ _ _ _ Hrun) as (s1 & caps1 & Hk1 & Hr1 & Hout1 & Hsure1 & Hkeep1).
    destruct (IH2 _ _ _ _ Hk1) as (s2 & caps2 & Hk2 & Hr2 & Hout2 & Hsure2 & Hkeep2).
    exists s2, caps2. simpl. split; [exact Hk2 |].
    split; [eapply reads_seq; eassumption |].
    split; [| split].
    + intros n Hn. rewrite Hout2, Hout1; auto; intro; apply Hn;
        apply in_or_app; auto.
    + intros n Hn. apply in_app_or in Hn. destruct Hn; auto.
    + auto.
  - destruct (re_run r1 s caps k) eqn:E1.
    + inversion Hrun; subst c.
      destruct (IH1 _ _ _ _ E1) as (s1 & caps1 & Hk1 & Hr1 & Hout1 & _ & Hkeep1).
      exists s1, caps1. simpl. split; [exact Hk1 |].
      split; [now apply reads_alt_l |]. split; [| split; [intros n [] | auto]].
      intros n Hn. apply Hout1. intro; apply Hn; apply in_or_app; auto.
    + destruct (IH2 _ _ _ _ Hrun) as (s2 & caps2 & Hk2 & Hr2 & Hout2 & _ & Hkeep2).
      exists s2, caps2. simpl. split; [exact Hk2 |].
      split; [now apply reads_alt_r |]. split; [| split; [intros n [] | auto]].
      intros n Hn. apply Hout2. intro; apply Hn; apply in_or_app; auto.
  - destruct (IH _ _ _ _ Hrun) as (s1 & caps1 & Hk1 & Hr1 & Hout1 & Hsure1 & Hkeep1).
    exists s1, (set_group name (consumed s s1) caps1).
    split; [exact Hk1 |]. split; [now apply reads_group |].
    destruct name as [m|]; simpl; [| auto].
    split; [| split].
    + intros n Hn. rewrite dict_get_set.
      destruct (String.eqb n m) eqn:E.
      * apply String.eqb_eq in E. subst m. exfalso. apply Hn. now left.
      * apply Hout1. intro; apply Hn; now right.
    + intros n Hn. rewrite dict_get_set.
      destruct (String.eqb n m) eqn:E; [discriminate |].
      destruct Hn as [->|Hn]; [now rewrite String.eqb_refl in E | auto].
    + intros n Hn. rewrite dict_get_set.
      destruct (String.eqb n m); [discriminate | auto].
  - destruct (greedy_sound p _ s res lo hi Hrun) as (a & t & -> & Ha & Hlo & Hhi & Hk).
    exists t, caps. split; [exact Hk |]. split; [now apply reads_rep |].
    split; [reflexivity |]. split; [intros n [] | auto].
  - destruct (re_run r s caps k) eqn:E1.
    + inversion Hrun; subst c.
      destruct (IH _ _ _ _ E1) as (s1 & caps1 & Hk1 & Hr1 & Hout1 & _ & Hkeep1).
      exists s1, caps1. simpl. split; [exact Hk1 |].
      split; [now apply reads_opt_some |]. split; [exact Hout1 |].
      split; [intros n [] | auto].
    + exists s, caps. split; [exact Hrun |]. split; [apply reads_opt_none |].
      split; [reflexivity |]. split; [intros n [] | auto].
Qed.

(** The pattern can read a line again after anything is appended to it. *)
Lemma reads_append (r : regex) (s s' : string) :
  reads r s s' -> forall x, reads r (s ++ x) (s' ++ x).
Proof.
  induction 1; intros x; simpl; eauto using reads.
  rewrite append_assoc. now apply reads_rep.
Qed.

(** [re.match] succeeds exactly on the strings with a prefix in the
    language of the pattern. *)
Lemma re_match_reads (r : regex) (s : string) :
  re_match r s <> None <-> exists s', reads r s s'.
Proof.
  unfold re_match. split.
  - destruct (re_run r s [] _) as [res|] eqn:E; [intros _ | congruence].
    destruct (re_run_sound _ _ _ _ _ E) as (s' & _ & _ & Hr & _).
    now exists s'.
  - intros [s' Hr]. apply (re_run_complete _ _ _ Hr). discriminate.
Qed.

(** [re.match] has no anchor at the end: a line that matches still matches
    with anything after it. *)
Lemma re_match_extend (r : regex) (s x : string) :
  re_match r s <> None -> re_match r (s ++ x) <> None.
Proof.
  rewrite !re_match_reads. intros [s' Hr].
  exists (s' ++ x). now apply reads_append.
Qed.

(** ** Stepping the matcher along a line *)

Lemma run_eps (s : string) (caps : captures)
  (k : string -> captures -> option captures) :
  re_run Eps s caps k = k s caps.
Proof. reflexivity. Qed.

Lemma run_chr (c : ascii) (s : string) (caps : captures)
  (k : string -> captures -> option captures) :
  re_run (Chr c) (String c s) caps k = k s caps.
Proof. simpl. now rewrite Ascii.eqb_refl. Qed.

Lemma run_cls (p : ascii -> bool) (c : ascii) (s : string) (caps : captures)
  (k : string -> captures -> option captures) :
  p c = true -> re_run (Cls p) (String c s) caps k = k s caps.
Proof. intros Hp. simpl. now rewrite Hp. Qed.

Lemma run_seq (r1 r2 : regex) (s : string) (caps : captures)
  (k : string -> captures -> option captures) :
  re_run (r1 @@ r2) s caps k
  = re_run r1 s caps (fun s' caps' => re_run r2 s' caps' k).
Proof. reflexivity. Qed.

Lemma run_group (name : option string) (r : regex) (s : string)
  (caps : captures) (k : string -> captures -> option captures) :
  re_run (Group name r) s caps k
  = re_run r s caps
      (fun s' caps' => k s' (set_group name (consumed s s') caps')).
Proof. reflexivity. Qed.

(** a repetition stops after [a] when the rest of the pattern succeeds
    there and fails after every longer run *)
Lemma run_rep_pick (p : ascii -> bool) (lo : nat) (hi : option nat)
  (a t : string) (caps : captures)
  (k : string -> captures -> option captures) (res : captures) :
  all_chars p a = true ->
  (lo <= String.length a)%nat -> within hi (String.length a) ->
  (forall a' t', a' <> EmptyString -> t = a' ++ t' ->
                 all_chars p a' = true -> k t' caps = None) ->
  k t caps = Some res ->
  re_run (Rep p lo hi) (a ++ t) caps k = Some res.
Proof.
  intros Ha Hlo Hhi Hlater Hk. simpl.
  apply greedy_pick; auto.
Qed.

(** a repetition stops before a character outside its class *)
Lemma run_rep_stop (p : ascii -> bool) (lo : nat) (hi : option nat)
  (a : string) (c : ascii) (t : string) (caps : captures)
  (k : string -> captures -> option captures) (res : captures) :
  all_chars p a = true ->
  (lo <= String.length a)%nat -> within hi (String.length a) ->
  p c = false ->
  k (String c t) caps = Some res ->
  re_run (Rep p lo hi) (a ++ String c t) caps k = Some res.
Proof.
  intros Ha Hlo Hhi Hc Hk. apply run_rep_pick; auto.
  intros [|c' a'] t' Hne Hsplit Ha'; [congruence |].
  simpl in Hsplit. inversion Hsplit; subst c'.
  simpl in Ha'. rewrite Hc in Ha'. discriminate.
Qed.

(** the alternation reads the name of each of the six methods *)
Lemma run_methods (m : method) (s : string) (caps : captures)
  (k : string -> captures -> option captures) (res : captures) :
  k s caps = Some res ->
  re_run Parser.methods (method_name m ++ s) caps k = Some res.
Proof.
  intros Hk. destruct m; simpl; rewrite Hk; reflexivity.
Qed.

Lemma run_bracket_fail (r : regex) (t : string) (caps : captures)
  (k : string -> captures -> option captures) :
  all_chars not_bracket t = true -> re_run (Chr "]" @@ r) t caps k = None.
Proof.
  destruct t as [|c t]; [reflexivity |].
  intros H. cbn [all_chars] in H. apply andb_prop in H. destruct H as [Hc _].
  unfold not_bracket in Hc. rewrite run_seq. cbn [re_run].
  rewrite Ascii.eqb_sym.
  destruct (Ascii.eqb c "]"); [discriminate | reflexivity].
Qed.

(** ** PATTERN on the lines of the log *)

(** Every match of [PATTERN] sets the four groups outside its optional
    tail. *)
Lemma PATTERN_groups (line : string) (g : captures) :
  re_match Parser.PATTERN line = Some g ->
  exists ip stamp pg ua,
    dict_get "IP" g = Some ip /\ dict_get "date" g = Some stamp
    /\ dict_get "page" g = Some pg /\ dict_get "User_Agent" g = Some ua.
Proof.
  intros Hm. unfold re_match in Hm.
  destruct (re_run_sound _ _ _ _ _ Hm) as (s' & caps' & Hk & _ & _ & Hsure & _).
  inversion Hk; subst caps'. clear Hk.
  assert (Hin : forall n, In n ["IP"; "date"; "page"; "User_Agent"] ->
                          dict_get n g <> None).
  { intros n Hn. apply Hsure. exact Hn. }
  destruct (dict_get "IP" g) as [ip|] eqn:E1;
    [| exfalso; apply (Hin "IP"); simpl; auto].
  destruct (dict_get "date" g) as [stamp|] eqn:E2;
    [| exfalso; apply (Hin "date"); simpl; auto].
  destruct (dict_get "page" g) as [pg|] eqn:E3;
    [| exfalso; apply (Hin "page"); simpl; auto].
  destruct (dict_get "User_Agent" g) as [ua|] eqn:E4;
    [| exfalso; apply (Hin "User_Agent"); simpl; auto].
  now exists ip, stamp, pg, ua.
Qed.

(** The branch of [type_conversion] for a missing group is dead code. *)
Lemma type_conversion_matched `{Host} (line : string) (g : captures) :
  re_match Parser.PATTERN line = Some g ->
  Parser.type_conversion g <> Raise TypeError.
Proof.
  intros Hm.
  destruct (PATTERN_groups _ _ Hm) as (ip & stamp & pg & ua & E1 & E2 & E3 & E4).
  unfold Parser.type_conversion. rewrite E1, E2, E3, E4.
  destruct (strptime_date stamp); discriminate.
Qed.

(** [PATTERN] is the IP, the dashes and [stamp_part]. *)
Lemma PATTERN_parts :
  Parser.PATTERN
  = Group (Some "IP")
      (times 3 (Group None (Parser.octet @@ Chr ".")) @@ Parser.octet)
    @@ Cls is_space @@ Chr "-" @@ Cls is_space @@ Chr "-" @@ Cls is_space
    @@ stamp_part.
Proof. reflexivity. Qed.

Ltac split_andb :=
  repeat match goal with
         | H : _ && _ = true |- _ => apply andb_prop in H; destruct H
         end.

(** On a well-formed line the part of the pattern after the page group
    succeeds, whatever the captures, and leaves the groups before it alone. *)
Lemma after_page_runs (l : log_fields) :
  well_formed l = true ->
  forall caps, exists res,
    re_run after_page (" " ++ f_version l ++ after_request l) caps
      (fun _ c => Some c) = Some res
    /\ forall n, n <> "User_Agent" -> n <> "time" ->
                 dict_get n res = dict_get n caps.
Proof.
  intros Hwf caps. unfold well_formed in Hwf. split_andb.
  assert (Hreads : reads after_page (" " ++ f_version l ++ after_request l)
                     (f_rest l)).
  { unfold after_page, after_request, plus, q. cbn [append].
    eapply reads_seq; [now apply reads_cls |].
    eapply reads_seq; [apply reads_rep; auto using nonempty_length; exact I |].
    eapply reads_seq; [apply reads_chr |].
    eapply reads_seq; [apply reads_chr |].
    eapply reads_seq; [apply reads_rep; auto using nonempty_length; exact I |].
    eapply reads_seq; [apply reads_chr |].
    eapply reads_seq; [apply reads_rep; auto using nonempty_length; exact I |].
    eapply reads_seq; [apply reads_chr |].
    eapply reads_seq; [apply reads_chr |].
    replace (f_referrer l ++ String dquote (String " " (String dquote
               (f_agent l ++ String dquote (f_rest l)))))
      with ((f_referrer l ++ q)
            ++ String " " (String dquote (f_agent l ++ String dquote (f_rest l))))
      by (now rewrite append_assoc).
    eapply reads_seq.
    { apply reads_rep; [| | exact I].
      - rewrite all_chars_append, H7. reflexivity.
      - rewrite length_append. simpl. lia. }
    eapply reads_seq; [now apply reads_cls |].
    eapply reads_seq; [apply reads_chr |].
    eapply reads_seq.
    { apply reads_group, reads_group, reads_rep; auto using nonempty_length.
      exact I. }
    eapply reads_seq; [apply reads_chr |].
    apply reads_opt_none. }
  destruct (re_run after_page _ caps (fun _ c => Some c)) as [res|] eqn:E.
  - exists res. split; [reflexivity |].
    destruct (re_run_sound _ _ _ _ _ E) as (s' & caps' & Hk & _ & Hout & _).
    inversion Hk; subst caps'. intros n Hua Htime. apply Hout.
    simpl. intros [Hn|[Hn|[]]]; congruence.
  - exfalso. revert E. apply (re_run_complete _ _ _ Hreads). discriminate.
Qed.

(** The page group takes the whole path: its longest try is followed by a
    blank, and the rest of the pattern succeeds from there. *)
Lemma page_runs (l : log_fields) :
  well_formed l = true ->
  forall caps, exists res,
    re_run (Group (Some "page") (Group None (plus is_nonspace)) @@ after_page)
      (f_path l ++ " " ++ f_version l ++ after_request l) caps
      (fun _ c => Some c) = Some res
    /\ dict_get "page" res = Some (f_path l)
    /\ forall n, n <> "page" -> n <> "User_Agent" -> n <> "time" ->
                 dict_get n res = dict_get n caps.
Proof.
  intros Hwf caps.
  destruct (after_page_runs l Hwf (dict_set "page" (f_path l) caps))
    as (res & Hres & Hout).
  exists res. unfold well_formed in Hwf. split_andb. split; [| split].
  - cbn [re_run plus append].
    apply greedy_pick; auto using nonempty_length; try exact I.
    + rewrite consumed_append. exact Hres.
    + intros [|c' a'] t' Hne Hsplit Ha'; [congruence |].
      simpl in Hsplit. inversion Hsplit; subst c'. discriminate.
  - rewrite Hout by discriminate. rewrite dict_get_set. reflexivity.
  - intros n Hpage Hua Htime. rewrite Hout by assumption.
    rewrite dict_get_set. apply String.eqb_neq in Hpage. now rewrite Hpage.
Qed.

(** the quote, the method and the page group *)
Lemma request_runs (l : log_fields) :
  well_formed l = true ->
  forall caps, exists res,
    re_run request_part (request_text l) caps (fun _ c => Some c) = Some res
    /\ dict_get "page" res = Some (f_path l)
    /\ forall n, n <> "page" -> n <> "User_Agent" -> n <> "time" ->
                 dict_get n res = dict_get n caps.
Proof.
  intros Hwf caps.
  destruct (page_runs l Hwf caps) as (res & Hres & Hpage & Hout).
  exists res. split; [| now split].
  unfold request_part, request_text, q. cbn [append].
  rewrite run_seq, run_cls by reflexivity.
  rewrite run_seq, run_chr.
  rewrite run_seq, run_group. apply run_methods.
  rewrite run_seq, run_cls by reflexivity.
  exact Hres.
Qed.

Lemma request_bracket_free (l : log_fields) :
  well_formed l = true -> all_chars not_bracket (request_text l) = true.
Proof.
  intros Hwf. unfold well_formed in Hwf. split_andb.
  unfold request_text, after_request.
  repeat rewrite all_chars_append.
  repeat match goal with
         | H : all_chars not_bracket _ = true |- _ => rewrite H
         end.
  rewrite (digits_bracket_free (f_status l)), (digits_bracket_free (f_size l))
    by assumption.
  destruct (f_method l); reflexivity.
Qed.

(** The date group stops at the bracket that closes the stamp: the text
    after it holds no other bracket for the matcher to come back to. *)
Lemma stamp_runs (l : log_fields) :
  well_formed l = true ->
  forall caps, exists res,
    re_run stamp_part ("[" ++ f_stamp l ++ "]" ++ request_text l) caps
      (fun _ c => Some c) = Some res
    /\ dict_get "date" res = Some (f_stamp l)
    /\ dict_get "page" res = Some (f_path l)
    /\ forall n, n <> "date" -> n <> "page" -> n <> "User_Agent" ->
                 n <> "time" -> dict_get n res = dict_get n caps.
Proof.
  intros Hwf caps.
  destruct (request_runs l Hwf (dict_set "date" (f_stamp l) caps))
    as (res & Hres & Hpage & Hout).
  pose proof (request_bracket_free l Hwf) as Hfree.
  exists res. unfold well_formed in Hwf. split_andb.
  split; [| split; [| split]].
  - unfold stamp_part. cbn [append].
    rewrite run_seq, run_chr.
    rewrite run_seq, run_group. unfold plus.
    apply run_rep_pick; auto using nonempty_length; try exact I.
    + intros [|c a'] t' Hne Hsplit _; [congruence |].
      simpl in Hsplit. inversion Hsplit as [[Hc Ht]].
      apply run_bracket_fail.
      rewrite Ht, all_chars_append in Hfree.
      apply andb_prop in Hfree. tauto.
    + rewrite consumed_append, run_seq, run_chr. exact Hres.
  - rewrite Hout by discriminate. rewrite dict_get_set. reflexivity.
  - exact Hpage.
  - intros n Hdate Hp Hua Htime. rewrite Hout by assumption.
    rewrite dict_get_set. apply String.eqb_neq in Hdate. now rewrite Hdate.
Qed.

Lemma octet_facts (s : string) :
  is_octet s = true ->
  all_chars is_digit s = true /\ (1 <= String.length s)%nat
  /\ within (Some 3%nat) (String.length s).
Proof.
  unfold is_octet. intros H. split_andb.
  split; [assumption |]. split; [now apply nonempty_length |].
  simpl. now apply Nat.leb_le.
Qed.

Lemma render_parts (l : log_fields) :
  render l
  = f_ip l ++ " - - " ++ "[" ++ f_stamp l ++ "]" ++ request_text l.
Proof.
  unfold render, f_ip, request_text.
  repeat rewrite append_assoc. reflexivity.
Qed.

Ltac octet_step :=
  unfold Parser.octet at 1;
  apply run_rep_stop; [assumption | assumption | assumption | reflexivity |];
  cbv beta.

(** On a well-formed line the pattern matches, and the groups IP, date and
    page hold the fields they are named after. *)
Lemma render_match (l : log_fields) :
  well_formed l = true ->
  exists g,
    re_match Parser.PATTERN (render l) = Some g
    /\ dict_get "IP" g = Some (f_ip l)
    /\ dict_get "date" g = Some (f_stamp l)
    /\ dict_get "page" g = Some (f_path l).
Proof.
  intros Hwf.
  destruct (stamp_runs l Hwf (dict_set "IP" (f_ip l) []))
    as (res & Hres & Hdate & Hpage & Hout).
  exists res. split; [| split; [| now split]].
  - unfold re_match. rewrite PATTERN_parts.
    unfold well_formed in Hwf. split_andb.
    destruct (octet_facts _ H) as (D1 & L1 & W1).
    destruct (octet_facts _ H20) as (D2 & L2 & W2).
    destruct (octet_facts _ H19) as (D3 & L3 & W3).
    destruct (octet_facts _ H18) as (D4 & L4 & W4).
    rewrite run_seq, run_group. cbn [times].
    unfold render at 1. cbn [append].
    rewrite run_seq, run_seq, run_group, run_seq. octet_step.
    rewrite run_chr, run_seq, run_group, run_seq. octet_step.
    rewrite run_chr, run_seq, run_group, run_seq. octet_step.
    rewrite run_chr, run_eps. octet_step.
    rewrite run_seq, run_cls by reflexivity.
    rewrite run_seq, run_chr.
    rewrite run_seq, run_cls by reflexivity.
    rewrite run_seq, run_chr.
    rewrite run_seq, run_cls by reflexivity.
    cbn [set_group].
    replace (consumed (render l) _) with (f_ip l); [exact Hres |].
    rewrite render_parts. symmetry.
    exact (consumed_append (f_ip l) _).
  - rewrite Hout by discriminate. rewrite dict_get_set. reflexivity.
Qed.

(** C2, amended: on a line of the recognized shape the page of the parsed
    record is the whole maximal run without white space that follows the
    method, which is the path: the one character that the pattern passes over
    before the version is the blank after the path. And [parse] does return a
    record for such a line when [strptime] accepts its stamp. *)
Theorem page_is_whole_path `{Host} (l : log_fields) :
  well_formed l = true ->
  nonspace_run (request_target l) = f_path l
  /\ (forall group,
         Parser.parse (render l) = Return (Some group) ->
         Parser.page group = nonspace_run (request_target l))
  /\ (forall d,
         strptime_date (f_stamp l) = Some d ->
         exists group, Parser.parse (render l) = Return (Some group)).
Proof.
  intros Hwf.
  assert (Hrun : nonspace_run (request_target l) = f_path l).
  { unfold well_formed in Hwf. split_andb. unfold request_target.
    cbn [append]. now apply nonspace_run_stop. }
  destruct (render_match l Hwf) as (g & Hm & Hip & Hdate & Hpage).
  destruct (PATTERN_groups _ _ Hm) as (ip & stamp & pg & ua & E1 & E2 & E3 & E4).
  split; [exact Hrun |]. rewrite Hrun.
  unfold Parser.parse, Parser.type_conversion.
  rewrite Hm, E1, E2, E3, E4. rewrite Hdate in E2. inversion E2; subst stamp.
  rewrite Hpage in E3. inversion E3; subst pg.
  split.
  - intros group. destruct (strptime_date (f_stamp l)); simpl; [| discriminate].
    intros Hg. inversion Hg. reflexivity.
  - intros d Hd. rewrite Hd. simpl. eexists. reflexivity.
Qed.

Lemma page_is_whole_path_witness :
  well_formed sample_fields = true
  /\ Parser.parse (H := Reference.host) (render sample_fields)
     = Return (Some sample_group)
  /\ Parser.page sample_group = nonspace_run (request_target sample_fields).
Proof.
  assert (Hwf : well_formed sample_fields = true) by (vm_compute; reflexivity).
  assert (Hparse : Parser.parse (H := Reference.host) (render sample_fields)
                   = Return (Some sample_group)) by (vm_compute; reflexivity).
  split; [exact Hwf |]. split; [exact Hparse |].
  exact (proj1 (proj2 (page_is_whole_path (H := Reference.host)
                         sample_fields Hwf)) sample_group Hparse).
Defined.

(** C2 as stated fails on the second line of [test_incorrect_logs]: its
    page is [/img/graph.png], with the last character of the path. *)
Lemma page_keeps_last_character :
  ~ (forall (l : log_fields) (group : Parser.group),
        well_formed l = true ->
        Parser.parse (H := Reference.host) (render l) = Return (Some group) ->
        Parser.page group = spec_page l).
Proof.
  intros Hclaim.
  assert (Hpage : Parser.page sample_group = spec_page sample_fields).
  { apply Hclaim; vm_compute; reflexivity. }
  vm_compute in Hpage. discriminate.
Qed.

(** C10: the pattern is matched as a prefix of the line. A line that
    matches is never dropped when anything is appended to it, and the second
    line of [test_incorrect_logs] followed by more text parses to the same
    record as without it (the host's [strptime] accepting its stamp). *)
Theorem parse_prefix_only `{Host} :
  strptime_date "08/Jul/2012:06:31:57 +0600" = Some (mkdate 2012 7 8) ->
  (forall line extra,
      re_match Parser.PATTERN line <> None ->
      Parser.parse (line ++ extra) <> Return None)
  /\ Parser.parse (render sample_fields) = Return (Some sample_group)
  /\ Parser.parse (render sample_fields ++ " and more") = Return (Some sample_group).
Proof.
  intros Hstamp. split; [| split].
  - intros line extra Hm. unfold Parser.parse.
    destruct (re_match Parser.PATTERN (line ++ extra)) as [g|] eqn:E.
    + destruct (Parser.type_conversion g); discriminate.
    + exfalso. revert E. now apply re_match_extend.
  - assert (Hm : re_match Parser.PATTERN (render sample_fields)
                 = Some [("IP", "192.168.74.83");
                         ("date", "08/Jul/2012:06:31:57 +0600");
                         ("page", "/img/graph.png"); ("User_Agent", msie9);
                         ("time", "123")]) by (vm_compute; reflexivity).
    unfold Parser.parse. rewrite Hm. unfold Parser.type_conversion.
    cbn [dict_get]. simpl. rewrite Hstamp. reflexivity.
  - assert (Hm : re_match Parser.PATTERN (render sample_fields ++ " and more")
                 = Some [("IP", "192.168.74.83");
                         ("date", "08/Jul/2012:06:31:57 +0600");
                         ("page", "/img/graph.png"); ("User_Agent", msie9);
                         ("time", "123")]) by (vm_compute; reflexivity).
    unfold Parser.parse. rewrite Hm. unfold Parser.type_conversion.
    simpl. rewrite Hstamp. reflexivity.
Qed.

Lemma parse_prefix_only_witness :
  Reference.strptime "08/Jul/2012:06:31:57 +0600" = Some (mkdate 2012 7 8)
  /\ Parser.parse (H := Reference.host) (render sample_fields ++ " and more")
     = Return (Some sample_group).
Proof.
  assert (Hstamp : Reference.strptime "08/Jul/2012:06:31:57 +0600"
                   = Some (mkdate 2012 7 8)) by (vm_compute; reflexivity).
  split; [exact Hstamp |].
  exact (proj2 (proj2 (parse_prefix_only (H := Reference.host) Hstamp))).
Defined.

(** ** The engine *)

(** C9: the report of a fresh engine has the seven keys in the order of
    [results]; every string-valued key holds the empty string and
    MostActiveClientByDay holds the one-entry mapping from 2012-07-08 to the
    empty string. *)
Theorem fresh_report `{Host} :
  Statistics.results make_stat
  = Return
      [ ("FastestPage", Plain (PyStr EmptyString));
        ("MostActiveClient", Plain (PyStr EmptyString));
        ("MostActiveClientByDay",
          ByDay [(mkdate 2012 7 8, PyStr EmptyString)]);
        ("MostPopularBrowser", Plain (PyStr EmptyString));
        ("MostPopularPage", Plain (PyStr EmptyString));
        ("SlowestAveragePage", Plain (PyStr EmptyString));
        ("SlowestPage", Plain (PyStr EmptyString)) ].
Proof. reflexivity. Qed.

(** C8: a line that the pattern does not match is dropped: [parse] returns
    [None], and [add_line] returns normally with every accumulator as it
    was. *)
Theorem add_line_unmatched `{Host} (line : string) (self : Statistics.t) :
  re_match Parser.PATTERN line = None ->
  Parser.parse line = Return None
  /\ Statistics.add_line line self = (Return tt, self).
Proof.
  intros Hno. unfold Statistics.add_line, Parser.parse.
  rewrite Hno. split; reflexivity.
Qed.

Lemma add_line_unmatched_witness :
  re_match Parser.PATTERN "192.fdfdfdfdfdfdfdfdf 304 211" = None
  /\ Parser.parse (H := Reference.host) "192.fdfdfdfdfdfdfdfdf 304 211"
     = Return None
  /\ Statistics.add_line (H := Reference.host) "192.fdfdfdfdfdfdfdfdf 304 211"
       make_stat
     = (Return tt, make_stat).
Proof.
  assert (Hno : re_match Parser.PATTERN "192.fdfdfdfdfdfdfdfdf 304 211" = None)
    by (vm_compute; reflexivity).
  split; [exact Hno |].
  exact (add_line_unmatched (H := Reference.host) _ make_stat Hno).
Defined.

(** C7: when the pattern matches a line and [strptime] rejects the text of
    its date group, [add_line] raises ValueError and the engine is as it was
    before the call. *)
Theorem add_line_bad_stamp `{Host} (line : string) (g : captures)
  (stamp : string) (self : Statistics.t) :
  re_match Parser.PATTERN line = Some g ->
  dict_get "date" g = Some stamp ->
  strptime_date stamp = None ->
  Statistics.add_line line self = (Raise ValueError, self).
Proof.
  intros Hm Hdate Hbad.
  destruct (PATTERN_groups _ _ Hm) as (ip & stamp' & pg & ua & E1 & E2 & E3 & E4).
  unfold Statistics.add_line, Parser.parse, Parser.type_conversion.
  rewrite Hm, E1, E2, E3, E4. rewrite Hdate in E2. inversion E2; subst stamp'.
  now rewrite Hbad.
Qed.

Lemma add_line_bad_stamp_witness :
  Reference.strptime "31/Feb/2012:06:31:57 +0600" = None
  /\ Statistics.add_line (H := Reference.host)
       (log_line "192.168.74.82" "31/Feb/2012:06:31:57 +0600"
          "GET /img/graph.png HTTP/1.1" " 123")
       make_stat
     = (Raise ValueError, make_stat).
Proof.
  split; [vm_compute; reflexivity |].
  eapply (add_line_bad_stamp (H := Reference.host)).
  - vm_compute. reflexivity.
  - reflexivity.
  - vm_compute. reflexivity.
Defined.

(** What [update] does with a record, by the record's time: the three timed
    accumulators are fed when the time is an int other than 0, and the four
    counters always. *)
Lemma update_dispatch `{Host} (group : Parser.group) (self : Statistics.t) :
  Statistics.update group self
  = Statistics.update_counted group
      (match Parser.time group with
       | None => self
       | Some t =>
           if t =? 0 then self
           else Statistics.update_timed t (Parser.page group) self
       end).
Proof.
  unfold Statistics.update, Statistics.truthy.
  destruct (Parser.time group) as [t|]; [|reflexivity].
  destruct (t =? 0); reflexivity.
Qed.

(** C1, at a record whose response time is present and is 0: [update] feeds
    none of FastestPage, SlowestPage and SlowestAveragePage, and feeds the
    four counters as for any record. *)
Theorem update_skips_zero_time `{Host} (group : Parser.group)
  (self : Statistics.t) :
  Parser.time group = Some 0 ->
  Statistics._fastest_page (Statistics.update group self)
  = Statistics._fastest_page self
  /\ Statistics._slowest_page (Statistics.update group self)
     = Statistics._slowest_page self
  /\ Statistics._slowest_average_page (Statistics.update group self)
     = Statistics._slowest_average_page self
  /\ Statistics._most_popular_page (Statistics.update group self)
     = MostPopularPageStat.update (Parser.page group)
         (Statistics._most_popular_page self)
  /\ Statistics._most_active_client (Statistics.update group self)
     = MostActiveClientStat.update (Parser.IP group)
         (Statistics._most_active_client self)
  /\ Statistics._most_popular_browser (Statistics.update group self)
     = MostPopularBrowserStat.update (Parser.User_Agent group)
         (Statistics._most_popular_browser self)
  /\ Statistics._most_active_client_by_day (Statistics.update group self)
     = MostActiveClientByDayStat.update (Parser.date group) (Parser.IP group)
         (Statistics._most_active_client_by_day self).
Proof.
  intros Hzero. rewrite update_dispatch, Hzero. simpl.
  repeat split; reflexivity.
Qed.

Lemma update_skips_zero_time_witness :
  Parser.parse (H := Reference.host)
    (log_line "192.168.74.82" "08/Jul/2012:06:31:57 +0600"
       "GET /img/graph.png HTTP/1.1" " 0")
  = Return (Some (Parser.mkgroup "192.168.74.82" (mkdate 2012 7 8)
                    "/img/graph.png" msie9 (Some 0)))
  /\ Statistics._fastest_page
       (Statistics.update (H := Reference.host)
          (Parser.mkgroup "192.168.74.82" (mkdate 2012 7 8)
             "/img/graph.png" msie9 (Some 0))
          make_stat)
     = FastestPageStat.init.
Proof.
  split; [vm_compute; reflexivity |].
  apply (update_skips_zero_time (H := Reference.host)
           (Parser.mkgroup "192.168.74.82" (mkdate 2012 7 8)
              "/img/graph.png" msie9 (Some 0)) make_stat).
  reflexivity.
Defined.
